(** * mnist.h: a loader for the IDX files of the MNIST data set

    A shallow embedding of [mnist.h] and the properties of its loaders,
    accessors and printing routine.

    The C code is modelled on a 64-bit platform with 32-bit [int] and
    [unsigned int] and a 64-bit [size_t] (LP64).  Integers are values of
    [Z] with the conversions of C written out; the C library ([fopen],
    [fread], [fclose], [malloc], [free], [printf]) is modelled by a small
    state monad over an explicit program state: a flat byte-addressed
    memory, the allocator's live blocks, the open streams and a trace of
    the library calls made. *)

From Stdlib Require Import ZArith List Lia Bool String Ascii Btauto.
From Stdlib Require Import Strings.Byte.
From coqutil Require Import Z.bitblast.
Import ListNotations.

Local Open Scope Z_scope.

(** ** C integers *)

Module CInt.

Definition INT_MAX : Z := 2147483647.

(** Conversion to [unsigned int] ([u32] in the source). *)
Definition to_u32 (z : Z) : Z := z mod 2 ^ 32.

(** Conversion to [int]: the value modulo 2^32, read as two's complement. *)
Definition to_int (z : Z) : Z :=
  let u := z mod 2 ^ 32 in
  if u <? 2 ^ 31 then u else u - 2 ^ 32.

(** Conversion to [size_t]. *)
Definition to_size_t (z : Z) : Z := z mod 2 ^ 64.

(** Byte [i] of a 32-bit value, byte 0 being the least significant. *)
Definition u32_byte (v i : Z) : Z := Z.land (Z.shiftr v (8 * i)) 0xFF.

Definition is_u32 (v : Z) : Prop := 0 <= v < 2 ^ 32.

End CInt.
Import CInt.

(** ** Bytes on the wire and in memory *)

Definition byte_val (b : byte) : Z := Z.of_N (Byte.to_N b).

(** The byte of a number, for writing test data. *)
Definition byte_of_Z (z : Z) : byte :=
  match Byte.of_N (Z.to_N (z mod 256)) with
  | Some b => b
  | None => x00
  end.

(** The value of four bytes read most significant first (wire order). *)
Definition be32 (b0 b1 b2 b3 : byte) : Z :=
  Z.lor (Z.shiftl (byte_val b0) 24)
    (Z.lor (Z.shiftl (byte_val b1) 16)
       (Z.lor (Z.shiftl (byte_val b2) 8) (byte_val b3))).

(** The value of four bytes read least significant first. *)
Definition le32 (b0 b1 b2 b3 : byte) : Z := be32 b3 b2 b1 b0.

(** What a [u32] object holds once the four bytes [b0 .. b3] have been
    stored at its address, lowest address first. *)
Definition u32_of_bytes (host_big : bool) (b0 b1 b2 b3 : byte) : Z :=
  if host_big then be32 b0 b1 b2 b3 else le32 b0 b1 b2 b3.

(** The object representation of an [int], lowest address first. *)
Definition int_repr (host_big : bool) (v : Z) : list Z :=
  let b i := u32_byte (to_u32 v) i in
  if host_big then [b 3; b 2; b 1; b 0] else [b 0; b 1; b 2; b 3].

(** ** Endianness *)

Definition MAGIC_NUMBER_LABELS : Z := 0x00000801.
Definition MAGIC_NUMBER_IMAGES : Z := 0x00000803.

(** [is_big_endian]: the first byte of the object representation of
    [int v = 1] is compared with 0. *)
Definition is_big_endian (host_big : bool) : bool :=
  let v := 1 in
  hd 0 (int_repr host_big v) =? 0.

(** [ret |= e] for an [int ret] and an [unsigned int e]: the operands are
    brought to [unsigned int] and the result is stored in the [int]. *)
Definition or_assign (ret e : Z) : Z := to_int (Z.lor (to_u32 ret) e).

(** [swap_endianness_u32]; the result is an [int]. *)
Definition swap_endianness_u32 (v : Z) : Z :=
  let ret := 0 in
  let ret := or_assign ret (Z.shiftr v 24) in
  let ret := or_assign ret (Z.shiftr (Z.land v 0xFF0000) 8) in
  let ret := or_assign ret (to_u32 (Z.shiftl (Z.land v 0xFF00) 8)) in
  let ret := or_assign ret (to_u32 (Z.shiftl v 24)) in
  ret.

(** ** Files, memory and the program state *)

(** A file on disk: its length and the byte at each offset. *)
Record file := mkFile {
  f_size : Z;
  f_byte : Z -> byte
}.

Definition file_of_list (l : list byte) : file :=
  {| f_size := Z.of_nat (List.length l);
     f_byte := fun i => nth (Z.to_nat i) l x00 |}.

(** An open stream ([FILE]): its number, the file and the read position. *)
Record FILE := mkFILE {
  fd : nat;
  contents : file;
  pos : Z
}.

(** Memory is flat and byte addressed; [None] is an unmapped address.
    The null pointer is address 0. *)
Definition memory := Z -> option byte.

(** The calls made to the C library, in order. *)
Inductive event :=
| EvOpen (path : string) (ok : bool)
| EvRead (stream : nat) (size nmemb got : Z)
| EvClose (stream : nat)
| EvMalloc (size p : Z)
| EvFree (p : Z).

(** What the program cannot change: the byte order of the host, the files
    that [fopen] can open for reading, and whether the allocator grants a
    request of a given size. *)
Record env := mkEnv {
  host_big_endian : bool;
  files : string -> option file;
  alloc_ok : Z -> bool
}.

Record state := mkState {
  mem : memory;
  brk : Z;                  (* the next address the allocator hands out *)
  live : list (Z * Z);      (* live blocks: address and size *)
  open_files : list nat;    (* streams opened and not yet closed *)
  next_fd : nat;
  trace : list event
}.

Definition log (ev : event) (s : state) : state :=
  {| mem := mem s; brk := brk s; live := live s;
     open_files := open_files s; next_fd := next_fd s;
     trace := trace s ++ [ev] |}.

(** ** The state monad of the embedding *)

Definition M (A : Type) : Type := state -> A * state.

Definition ret {A} (a : A) : M A := fun s => (a, s).

Definition bind {A B} (m : M A) (k : A -> M B) : M B :=
  fun s => let (a, s') := m s in k a s'.

Declare Scope c_scope.
Delimit Scope c_scope with C.
Notation "x <- m ;; k" := (bind m (fun x => k))
  (at level 61, m at next level, right associativity) : c_scope.
Notation "' pat <- m ;; k" := (bind m (fun x => match x with pat => k end))
  (at level 61, pat pattern, m at next level, right associativity) : c_scope.
Notation "m ;; k" := (bind m (fun _ => k))
  (at level 61, right associativity) : c_scope.

(** ** The C library *)

Definition fopen (e : env) (path : string) : M (option FILE) :=
  fun s =>
    match files e path with
    | None => (None, log (EvOpen path false) s)
    | Some f =>
        let id := next_fd s in
        (Some {| fd := id; contents := f; pos := 0 |},
         {| mem := mem s; brk := brk s; live := live s;
            open_files := id :: open_files s; next_fd := S id;
            trace := trace s ++ [EvOpen path true] |})
    end.

Definition fclose (fp : FILE) : M unit :=
  fun s =>
    (tt,
     {| mem := mem s; brk := brk s; live := live s;
        open_files := filter (fun i => negb (Nat.eqb i (fd fp))) (open_files s);
        next_fd := next_fd s;
        trace := trace s ++ [EvClose (fd fp)] |}).

(** Bytes of the stream not read yet. *)
Definition remaining (fp : FILE) : Z := Z.max 0 (f_size (contents fp) - pos fp).

Definition advance (fp : FILE) (n : Z) : FILE :=
  {| fd := fd fp; contents := contents fp; pos := pos fp + n |}.

(** [fread(&field, sizeof(u32), 1, fp)]: one item of four bytes, stored in
    a [u32] object.  The result is [None] when [fread] returns 0 (no
    complete item was left) and the value of the object otherwise. *)
Definition fread_u32 (e : env) (fp : FILE) : M (option Z * FILE) :=
  fun s =>
    let f := contents fp in
    let p := pos fp in
    if 4 <=? remaining fp then
      ((Some (u32_of_bytes (host_big_endian e)
                (f_byte f p) (f_byte f (p + 1)) (f_byte f (p + 2)) (f_byte f (p + 3))),
        advance fp 4),
       log (EvRead (fd fp) 4 1 1) s)
    else
      ((None, advance fp (remaining fp)), log (EvRead (fd fp) 4 1 0) s).

(** Memory after [n] bytes taken from [src] were stored from address [p]. *)
Definition store_bytes (m : memory) (p n : Z) (src : Z -> byte) : memory :=
  fun a => if (p <=? a) && (a <? p + n) then Some (src (a - p)) else m a.

(** [fread(ptr, sizeof(unsigned char), nmemb, fp)]: as many bytes as are
    left, at most [nmemb], go to memory from [ptr]; their number is returned. *)
Definition fread_bytes (ptr nmemb : Z) (fp : FILE) : M (Z * FILE) :=
  fun s =>
    let got := Z.min nmemb (remaining fp) in
    ((got, advance fp got),
     {| mem := store_bytes (mem s) ptr got
                 (fun i => f_byte (contents fp) (pos fp + i));
        brk := brk s; live := live s;
        open_files := open_files s; next_fd := next_fd s;
        trace := trace s ++ [EvRead (fd fp) 1 nmemb got] |}).

(** [malloc(size)]: a fresh block, or the null pointer. *)
Definition malloc (e : env) (size : Z) : M Z :=
  fun s =>
    if alloc_ok e size then
      let p := brk s in
      (p,
       {| mem := mem s; brk := p + Z.max size 1; live := (p, size) :: live s;
          open_files := open_files s; next_fd := next_fd s;
          trace := trace s ++ [EvMalloc size p] |})
    else (0, log (EvMalloc size 0) s).

Definition free (p : Z) : M unit :=
  fun s =>
    (tt,
     {| mem := mem s; brk := brk s;
        live := filter (fun b => negb (fst b =? p)) (live s);
        open_files := open_files s; next_fd := next_fd s;
        trace := trace s ++ [EvFree p] |}).

(** ** The structures of [mnist.h] *)

Record mnist_labels := mkLabels {
  labels_count : Z;
  labels_data : Z;
  labels_valid : Z
}.

Record mnist_image := mkImage {
  image_rows : Z;
  image_columns : Z;
  image_data : Z
}.

Record mnist_images := mkImages {
  images_count : Z;
  images_rows : Z;
  images_columns : Z;
  images_data : Z;
  images_valid : Z
}.

Record mnist_labels_header := mkLabelsHeader {
  lh_magic_number : Z;
  lh_number_of_items : Z
}.

Record mnist_images_header := mkImagesHeader {
  ih_magic_number : Z;
  ih_number_of_images : Z;
  ih_number_of_rows : Z;
  ih_number_of_columns : Z
}.

(** [mnist_labels labels = {0};] and [mnist_images images = {0};] *)
Definition labels_zero : mnist_labels :=
  {| labels_count := 0; labels_data := 0; labels_valid := 0 |}.

Definition images_zero : mnist_images :=
  {| images_count := 0; images_rows := 0; images_columns := 0;
     images_data := 0; images_valid := 0 |}.

(** Products of [unsigned int] and of [int].  An [int] product that does
    not fit is undefined in C; it wraps here, as it does on the machine. *)
Definition u32_mul (a b : Z) : Z := to_u32 (a * b).
Definition int_mul (a b : Z) : Z := to_int (a * b).
Definition int_add (a b : Z) : Z := to_int (a + b).

(** ** The loaders *)

Local Open Scope c_scope.

Definition mnist_load_labels (e : env) (filepath : option string) : M mnist_labels :=
  let labels := labels_zero in
  match filepath with
  | None => ret labels
  | Some path =>
    fp <- fopen e path ;;
    match fp with
    | None => ret labels
    | Some fp =>
      '(magic_number, fp) <- fread_u32 e fp ;;
      match magic_number with
      | None => fclose fp ;; ret labels
      | Some magic_number =>
        '(number_of_items, fp) <- fread_u32 e fp ;;
        match number_of_items with
        | None => fclose fp ;; ret labels
        | Some number_of_items =>
          let header :=
            {| lh_magic_number := magic_number;
               lh_number_of_items := number_of_items |} in
          let header :=
            if negb (is_big_endian (host_big_endian e)) then
              {| lh_magic_number :=
                   to_u32 (swap_endianness_u32 (lh_magic_number header));
                 lh_number_of_items :=
                   to_u32 (swap_endianness_u32 (lh_number_of_items header)) |}
            else header in
          if negb (lh_magic_number header =? MAGIC_NUMBER_LABELS) then
            fclose fp ;; ret labels
          else
            label_data <- malloc e (to_size_t (1 * to_size_t (lh_number_of_items header))) ;;
            if label_data =? 0 then
              ret labels
            else
              '(got, fp) <- fread_bytes label_data
                              (to_size_t (lh_number_of_items header)) fp ;;
              if negb (got =? to_size_t (lh_number_of_items header)) then
                fclose fp ;; free label_data ;; ret labels
              else
                fclose fp ;;
                ret {| labels_count := to_int (lh_number_of_items header);
                       labels_data := label_data;
                       labels_valid := 1 |}
        end
      end
    end
  end.

Definition mnist_load_images (e : env) (filepath : option string) : M mnist_images :=
  let images := images_zero in
  match filepath with
  | None => ret images
  | Some path =>
    fp <- fopen e path ;;
    match fp with
    | None => ret images
    | Some fp =>
      '(magic_number, fp) <- fread_u32 e fp ;;
      match magic_number with
      | None => fclose fp ;; ret images
      | Some magic_number =>
        '(number_of_images, fp) <- fread_u32 e fp ;;
        match number_of_images with
        | None => fclose fp ;; ret images
        | Some number_of_images =>
          '(number_of_rows, fp) <- fread_u32 e fp ;;
          match number_of_rows with
          | None => fclose fp ;; ret images
          | Some number_of_rows =>
            '(number_of_columns, fp) <- fread_u32 e fp ;;
            match number_of_columns with
            | None => fclose fp ;; ret images
            | Some number_of_columns =>
              let header :=
                {| ih_magic_number := magic_number;
                   ih_number_of_images := number_of_images;
                   ih_number_of_rows := number_of_rows;
                   ih_number_of_columns := number_of_columns |} in
              let header :=
                if negb (is_big_endian (host_big_endian e)) then
                  {| ih_magic_number :=
                       to_u32 (swap_endianness_u32 (ih_magic_number header));
                     ih_number_of_images :=
                       to_u32 (swap_endianness_u32 (ih_number_of_images header));
                     ih_number_of_rows :=
                       to_u32 (swap_endianness_u32 (ih_number_of_rows header));
                     ih_number_of_columns :=
                       to_u32 (swap_endianness_u32 (ih_number_of_columns header)) |}
                else header in
              if negb (ih_magic_number header =? MAGIC_NUMBER_IMAGES) then
                fclose fp ;; ret images
              else
                let size :=
                  to_int (u32_mul (u32_mul (ih_number_of_images header)
                                           (ih_number_of_rows header))
                                  (ih_number_of_columns header)) in
                image_data <- malloc e (to_size_t (1 * to_size_t size)) ;;
                if image_data =? 0 then
                  ret images
                else
                  '(got, fp) <- fread_bytes image_data (to_size_t size) fp ;;
                  if negb (got =? to_size_t size) then
                    fclose fp ;; free image_data ;; ret images
                  else
                    fclose fp ;;
                    ret {| images_count := to_int (ih_number_of_images header);
                           images_rows := to_int (ih_number_of_rows header);
                           images_columns := to_int (ih_number_of_columns header);
                           images_data := image_data;
                           images_valid := 1 |}
            end
          end
        end
      end
    end
  end.

Local Close Scope c_scope.

(** ** The accessors *)

(** [labels.data[index]]: the byte at address [data + index]. *)
Definition mnist_get_label (m : memory) (labels : mnist_labels) (index : Z) : option byte :=
  m (labels_data labels + index).

(** [image.data = &images.data[images.rows * images.columns * index]] *)
Definition mnist_get_image (images : mnist_images) (index : Z) : mnist_image :=
  {| image_rows := images_rows images;
     image_columns := images_columns images;
     image_data :=
       images_data images
       + int_mul (int_mul (images_rows images) (images_columns images)) index |}.

(** ** Printing *)

Definition newline : string := String (ascii_of_nat 10) EmptyString.

(** What the inner loop prints from column [col] on, [n] columns being left. *)
Fixpoint print_columns (m : memory) (image : mnist_image) (threshold : byte)
    (row : Z) (n : nat) (col : Z) : option string :=
  match n with
  | O => Some EmptyString
  | S n' =>
      match m (image_data image + int_add col (int_mul row (image_columns image))) with
      | None => None
      | Some v =>
          match print_columns m image threshold row n' (col + 1) with
          | None => None
          | Some rest =>
              let printed :=
                if byte_val threshold <=? byte_val v then "##"%string else "  "%string in
              Some (printed ++ rest)%string
          end
      end
  end.

(** What the outer loop prints from row [row] on, [n] rows being left. *)
Fixpoint print_rows (m : memory) (image : mnist_image) (threshold : byte)
    (n : nat) (row : Z) : option string :=
  match n with
  | O => Some EmptyString
  | S n' =>
      match print_columns m image threshold row
              (Z.to_nat (image_columns image)) 0 with
      | None => None
      | Some line =>
          match print_rows m image threshold n' (row + 1) with
          | None => None
          | Some rest => Some (line ++ newline ++ rest)%string
          end
      end
  end.

(** [mnist_print_image]: the text written to the standard output, or
    [None] when a pixel is read from an unmapped address. *)
Definition mnist_print_image (m : memory) (image : mnist_image) (threshold : byte)
    : option string :=
  match print_rows m image threshold (Z.to_nat (image_rows image)) 0 with
  | None => None
  | Some text => Some (text ++ newline)%string
  end.

(** ** Reading memory back, and test data *)

(** The [n] bytes of memory from address [p]. *)
Definition read_bytes (m : memory) (p : Z) (n : nat) : list (option byte) :=
  map (fun i => m (p + Z.of_nat i)) (seq 0 n).

(** Memory holds the bytes [l] from address [p]. *)
Definition mem_holds (m : memory) (p : Z) (l : list byte) : Prop :=
  forall i, 0 <= i < Z.of_nat (List.length l) ->
            m (p + i) = Some (nth (Z.to_nat i) l x00).

Definition bytes_of (l : list Z) : list byte := map byte_of_Z l.

(** A disk with one file. *)
Definition disk (name : string) (f : file) : string -> option file :=
  fun path => if String.eqb path name then Some f else None.

(** A little-endian host whose allocator grants requests up to [limit] bytes. *)
Definition host (limit : Z) (d : string -> option file) : env :=
  {| host_big_endian := false; files := d; alloc_ok := fun n => n <=? limit |}.

(** A program that has allocated nothing and has only the standard
    streams open. *)
Definition start : state :=
  {| mem := fun _ => None; brk := 0x1000; live := [];
     open_files := []; next_fd := 3; trace := [] |}.

(** A label file with the two labels 7 and 3. *)
Definition two_labels : file :=
  file_of_list (bytes_of [0; 0; 8; 1;  0; 0; 0; 2;  7; 3]).

(** An image file with two images of 2 x 2 pixels. *)
Definition two_images : file :=
  file_of_list (bytes_of [0; 0; 8; 3;  0; 0; 0; 2;  0; 0; 0; 2;  0; 0; 0; 2;
                          1; 2; 3; 4;  5; 6; 7; 8]).

(** ** Vocabulary of the statements *)

(** The 32-bit field a file holds at offset [p], in wire order. *)
Definition wire_u32 (f : file) (p : Z) : Z :=
  be32 (f_byte f p) (f_byte f (p + 1)) (f_byte f (p + 2)) (f_byte f (p + 3)).

Definition wire_u32_of (f : option file) (p : Z) : Z :=
  match f with
  | Some f => wire_u32 f p
  | None => 0
  end.

(** Library calls that allocate, release or read payload: everything but
    opening, closing and reading one 4-byte header field. *)
Definition touches_payload (ev : event) : bool :=
  match ev with
  | EvOpen _ _ | EvClose _ => false
  | EvRead _ size nmemb _ => negb ((size =? 4) && (nmemb =? 1))
  | EvMalloc _ _ | EvFree _ => true
  end.

(** The allocator never hands out the null pointer or a live address, and
    stream numbers are not reused while open. *)
Definition state_ok (s : state) : Prop :=
  0 < brk s /\
  Forall (fun b => fst b < brk s) (live s) /\
  Forall (fun i => (i < next_fd s)%nat) (open_files s).

(** The state once [path] was opened and [k] header fields were read. *)
Definition after_header (path : string) (k : nat) (s : state) : state :=
  {| mem := mem s; brk := brk s; live := live s;
     open_files := next_fd s :: open_files s; next_fd := S (next_fd s);
     trace := trace s ++ EvOpen path true :: repeat (EvRead (next_fd s) 4 1 1) k |}.

(** The stream of a file opened in state [s], read up to offset [p]. *)
Definition stream_at (s : state) (f : file) (p : Z) : FILE :=
  {| fd := next_fd s; contents := f; pos := p |}.

Local Open Scope c_scope.

(** The part of [mnist_load_labels] that follows the normalisation of the
    header: the check of the magic number and the loading of the payload. *)
Definition labels_payload (e : env) (fp : FILE) (header : mnist_labels_header)
    : M mnist_labels :=
  if negb (lh_magic_number header =? MAGIC_NUMBER_LABELS) then
    fclose fp ;; ret labels_zero
  else
    label_data <- malloc e (to_size_t (1 * to_size_t (lh_number_of_items header))) ;;
    if label_data =? 0 then
      ret labels_zero
    else
      '(got, fp) <- fread_bytes label_data
                      (to_size_t (lh_number_of_items header)) fp ;;
      if negb (got =? to_size_t (lh_number_of_items header)) then
        fclose fp ;; free label_data ;; ret labels_zero
      else
        fclose fp ;;
        ret {| labels_count := to_int (lh_number_of_items header);
               labels_data := label_data;
               labels_valid := 1 |}.

(** The same part of [mnist_load_images]. *)
Definition images_payload (e : env) (fp : FILE) (header : mnist_images_header)
    : M mnist_images :=
  if negb (ih_magic_number header =? MAGIC_NUMBER_IMAGES) then
    fclose fp ;; ret images_zero
  else
    let size :=
      to_int (u32_mul (u32_mul (ih_number_of_images header)
                               (ih_number_of_rows header))
                      (ih_number_of_columns header)) in
    image_data <- malloc e (to_size_t (1 * to_size_t size)) ;;
    if image_data =? 0 then
      ret images_zero
    else
      '(got, fp) <- fread_bytes image_data (to_size_t size) fp ;;
      if negb (got =? to_size_t size) then
        fclose fp ;; free image_data ;; ret images_zero
      else
        fclose fp ;;
        ret {| images_count := to_int (ih_number_of_images header);
               images_rows := to_int (ih_number_of_rows header);
               images_columns := to_int (ih_number_of_columns header);
               images_data := image_data;
               images_valid := 1 |}.

Local Close Scope c_scope.

(** The open streams of [s] once the stream opened last is closed again. *)
Definition closed_again (s : state) : list nat :=
  filter (fun i => negb (Nat.eqb i (next_fd s))) (next_fd s :: open_files s).

(** [s'] is [s] after a file was opened, some header fields were read and
    the file was closed: the heap is untouched and the library was not
    asked to allocate, release or read payload. *)
Definition header_only (s s' : state) : Prop :=
  mem s' = mem s /\ brk s' = brk s /\ live s' = live s /\
  open_files s' = closed_again s /\
  exists evs, trace s' = trace s ++ evs /\ existsb touches_payload evs = false.

(** ** Further test data *)

(** An image file whose header declares 0x40000001 images of 4 x 1 pixels
    (4294967300 bytes of pixels) and which holds four bytes of pixels. *)
Definition overflow_images : file :=
  file_of_list (bytes_of [0; 0; 8; 3;  64; 0; 0; 1;  0; 0; 0; 4;  0; 0; 0; 1;
                          1; 2; 3; 4]).

(** A header followed by [payload] bytes, all of them 0. *)
Definition header_and_zeros (header : list Z) (payload : Z) : file :=
  {| f_size := Z.of_nat (List.length header) + payload;
     f_byte := fun i => nth (Z.to_nat i) (bytes_of header) x00 |}.

(** A label file of 2 GiB: 0x80000000 labels, all present. *)
Definition huge_labels : file :=
  header_and_zeros [0; 0; 8; 1;  128; 0; 0; 0] (2 ^ 31).

(** A label file that declares 0xFFFFFFFF labels and an image file that
    declares 0x80000000 images of 1 x 1 pixels. *)
Definition greedy_labels : file :=
  header_and_zeros [0; 0; 8; 1;  255; 255; 255; 255] 16.

Definition greedy_images : file :=
  header_and_zeros [0; 0; 8; 3;  128; 0; 0; 0;  0; 0; 0; 1;  0; 0; 0; 1] 16.

(** A memory in which the label buffer [7; 3] at 0x1000 and the pixel
    buffer [1 .. 8] at 0x2000 have mapped neighbours on both sides. *)
Definition crowded_memory : memory :=
  store_bytes
    (store_bytes (fun _ => None) 0x0FFF 4
       (fun i => nth (Z.to_nat i) (bytes_of [9; 7; 3; 42]) x00))
    0x1FFF 10
    (fun i => nth (Z.to_nat i) (bytes_of [11; 1; 2; 3; 4; 5; 6; 7; 8; 99]) x00).

Definition crowded_labels : mnist_labels :=
  {| labels_count := 2; labels_data := 0x1000; labels_valid := 1 |}.

Definition crowded_images : mnist_images :=
  {| images_count := 2; images_rows := 2; images_columns := 2;
     images_data := 0x2000; images_valid := 1 |}.

(** ** The invariant of an image set *)

(** The buffer of the set is a live block of [count * rows * columns]
    bytes. *)
Definition images_invariant (s : state) (images : mnist_images) : Prop :=
  In (images_data images,
      images_count images * images_rows images * images_columns images)
     (live s).

(** ** The text of a picture *)

(** The two characters of a pixel, by the rule of the specification: ink
    when the value is at least the threshold, blanks otherwise. *)
Definition glyph (threshold v : byte) : string :=
  if byte_val threshold <=? byte_val v then "##"%string else "  "%string.

(** The strings of a list, one after the other. *)
Definition flatten (l : list string) : string :=
  fold_right String.append EmptyString l.

(** The character grid of the specification for [rows] x [cols] pixels:
    the glyphs of a row make a line, and an empty line ends the picture. *)
Definition render (threshold : byte) (rows cols : nat) (pixel : nat -> nat -> byte)
    : string :=
  (flatten
     (map (fun r =>
             flatten (map (fun c => glyph threshold (pixel r c)) (seq 0 cols))
             ++ newline)
          (seq 0 rows))
   ++ newline)%string.

(** The pixels of a view as they lie in memory, row after row; a view
    that has pixels has at most [INT_MAX] of them, like the buffer it is
    taken from. *)
Definition view_holds (m : memory) (image : mnist_image) (pixel : nat -> nat -> byte)
    : Prop :=
  (0 < image_rows image -> 0 < image_columns image ->
   image_rows image * image_columns image <= INT_MAX) /\
  forall r c : nat,
    Z.of_nat r < image_rows image -> Z.of_nat c < image_columns image ->
    m (image_data image + (Z.of_nat c + Z.of_nat r * image_columns image))
    = Some (pixel r c).

(** ** Vocabulary for whole runs *)

(** The header fields a file holds in full. *)
Definition whole_fields (f : file) : nat := Z.to_nat (Z.max 0 (f_size f) / 4).

(** The [int] that [mnist_load_images] computes from the header of [f]:
    [int size = number_of_images * number_of_rows * number_of_columns]. *)
Definition image_size (f : file) : Z :=
  to_int (u32_mul (u32_mul (wire_u32 f 4) (wire_u32 f 8)) (wire_u32 f 12)).

(** The state once [path] was opened, [k] header fields were read, a
    buffer of [n] bytes was allocated and [got] bytes were read into it
    from offset [4 * k] of the file [f]. *)
Definition after_payload (path : string) (k : nat) (s : state) (f : file)
    (n got : Z) : state :=
  {| mem := store_bytes (mem s) (brk s) got
              (fun i => f_byte f (4 * Z.of_nat k + i));
     brk := brk s + Z.max n 1;
     live := (brk s, n) :: live s;
     open_files := next_fd s :: open_files s;
     next_fd := S (next_fd s);
     trace := (trace (after_header path k s) ++ [EvMalloc n (brk s)])
              ++ [EvRead (next_fd s) 1 n got] |}.

(** The same environment on a host of the given byte order. *)
Definition with_host (host_big : bool) (e : env) : env :=
  {| host_big_endian := host_big; files := files e; alloc_ok := alloc_ok e |}.

(** A disk with the label file and the image file of the examples. *)
Definition two_files : string -> option file :=
  fun path =>
    if String.eqb path "labels" then Some two_labels
    else if String.eqb path "images" then Some two_images
    else None.

(** A label file cut after its third byte, and one that declares five
    labels and holds two. *)
Definition cut_header : file := file_of_list (bytes_of [0; 0; 8]).

Definition cut_labels : file :=
  file_of_list (bytes_of [0; 0; 8; 1;  0; 0; 0; 5;  7; 3]).

(** An image file that declares two images of 2 x 2 pixels and holds five
    pixels. *)
Definition cut_images : file :=
  file_of_list (bytes_of [0; 0; 8; 3;  0; 0; 0; 2;  0; 0; 0; 2;  0; 0; 0; 2;
                          1; 2; 3; 4;  5]).

(** The picture in which every pixel is inked. *)
Definition all_ink (rows cols : nat) : string :=
  (flatten (repeat (flatten (repeat "##"%string cols) ++ newline) rows)
   ++ newline)%string.

(** * Properties *)

(** ** Integer conversions and the byte swap *)

Lemma to_u32_to_int z : to_u32 (to_int z) = to_u32 z.
Proof.
  unfold to_u32, to_int. destruct (Z.ltb_spec (z mod 2^32) (2^31)).
  - apply Z.mod_mod. lia.
  - rewrite <- (Z.mod_add (z mod 2^32 - 2^32) 1 (2^32)) by lia.
    replace (z mod 2 ^ 32 - 2 ^ 32 + 1 * 2 ^ 32) with (z mod 2^32) by lia.
    apply Z.mod_mod. lia.
Qed.

Lemma to_u32_swap v :
  to_u32 (swap_endianness_u32 v) =
  to_u32 (Z.lor (Z.lor (Z.lor (Z.shiftr v 24) (Z.shiftr (Z.land v 0xFF0000) 8))
             (Z.shiftl (Z.land v 0xFF00) 8)) (Z.shiftl v 24)).
Proof.
  unfold swap_endianness_u32, or_assign.
  rewrite !to_u32_to_int. unfold to_u32.
  change 0xFF0000 with (Z.shiftl (Z.ones 8) 16).
  change 0xFF00 with (Z.shiftl (Z.ones 8) 8).
  Z.bitblast.
Qed.

Lemma u32_bits_high v i : is_u32 v -> 32 <= i -> Z.testbit v i = false.
Proof.
  intros Hv Hi. rewrite <- (Z.mod_small v (2 ^ 32)) by exact Hv.
  apply Z.mod_pow2_bits_high. lia.
Qed.

Ltac u32_bits v Hv :=
  repeat match goal with
    | |- context [Z.testbit v ?l] =>
        first [ rewrite (Z.testbit_neg_r v l) by lia
              | rewrite (u32_bits_high v l Hv) by lia ]
    end;
  cbn [andb orb negb]; try reflexivity; try btauto.

Ltac mask_consts :=
  change 0xFF0000 with (Z.shiftl (Z.ones 8) 16) in *;
  change 0xFF00 with (Z.shiftl (Z.ones 8) 8) in *;
  change 0xFF with (Z.ones 8) in *.

Lemma swap_byte v i :
  is_u32 v -> 0 <= i <= 3 ->
  u32_byte (to_u32 (swap_endianness_u32 v)) i = u32_byte v (3 - i).
Proof.
  intros Hv Hi. rewrite to_u32_swap. unfold u32_byte, to_u32. mask_consts.
  assert (i = 0 \/ i = 1 \/ i = 2 \/ i = 3) as [-> | [-> | [-> | ->]]] by lia;
    cbn [Z.mul Z.sub Z.opp Z.add Z.pos_sub Pos.mul Pos.add Pos.succ
         Z.succ_double Z.pred_double Z.double Pos.pred_double];
    Z.bitblast; u32_bits v Hv.
Qed.

(** The bytes of an [int] are those of the [unsigned int] with the same
    representation. *)
Lemma u32_byte_to_int z i :
  0 <= i <= 3 -> u32_byte (to_int z) i = u32_byte (to_u32 z) i.
Proof.
  intros Hi. unfold to_int, to_u32.
  destruct (Z.ltb_spec (z mod 2 ^ 32) (2 ^ 31)) as [|Hge]; [reflexivity|].
  assert (E : (z mod 2 ^ 32 - 2 ^ 32) mod 2 ^ 32 = z mod 2 ^ 32).
  { rewrite <- (Z.mod_add _ 1) by lia.
    replace (z mod 2 ^ 32 - 2 ^ 32 + 1 * 2 ^ 32) with (z mod 2 ^ 32) by lia.
    apply Z.mod_mod. lia. }
  rewrite <- E at 2. unfold u32_byte. mask_consts.
  generalize (z mod 2 ^ 32 - 2 ^ 32). intros w.
  Z.bitblast.
Qed.

Lemma to_int_idem z : to_int (to_int z) = to_int z.
Proof.
  unfold to_int at 2 3.
  destruct (Z.ltb_spec (z mod 2 ^ 32) (2 ^ 31)) as [Hlt|Hge].
  - unfold to_int. rewrite Z.mod_mod by lia.
    destruct (Z.ltb_spec (z mod 2 ^ 32) (2 ^ 31)); [reflexivity|lia].
  - unfold to_int.
    assert (E : (z mod 2 ^ 32 - 2 ^ 32) mod 2 ^ 32 = z mod 2 ^ 32).
    { rewrite <- (Z.mod_add _ 1) by lia.
      replace (z mod 2 ^ 32 - 2 ^ 32 + 1 * 2 ^ 32) with (z mod 2 ^ 32) by lia.
      apply Z.mod_mod. lia. }
    rewrite E. destruct (Z.ltb_spec (z mod 2 ^ 32) (2 ^ 31)); [lia|reflexivity].
Qed.

(** The result of the swap is an [int]. *)
Lemma swap_is_int v : to_int (swap_endianness_u32 v) = swap_endianness_u32 v.
Proof. unfold swap_endianness_u32. cbv zeta. apply to_int_idem. Qed.

Lemma to_u32_range z : is_u32 (to_u32 z).
Proof. unfold is_u32, to_u32. apply Z.mod_pos_bound. lia. Qed.

Lemma u32_from_bytes v :
  is_u32 v ->
  v = Z.lor (Z.shiftl (u32_byte v 3) 24)
        (Z.lor (Z.shiftl (u32_byte v 2) 16)
           (Z.lor (Z.shiftl (u32_byte v 1) 8) (u32_byte v 0))).
Proof.
  intros Hv. unfold u32_byte. mask_consts.
  cbn [Z.mul Pos.mul].
  Z.bitblast; u32_bits v Hv.
Qed.

Lemma u32_bytes_ext a b :
  is_u32 a -> is_u32 b ->
  (forall i, 0 <= i <= 3 -> u32_byte a i = u32_byte b i) -> a = b.
Proof.
  intros Ha Hb H.
  rewrite (u32_from_bytes a Ha), (u32_from_bytes b Hb).
  rewrite !H by lia. reflexivity.
Qed.

Lemma swap_involutive v :
  is_u32 v -> to_u32 (swap_endianness_u32 (to_u32 (swap_endianness_u32 v))) = v.
Proof.
  intros Hv. apply u32_bytes_ext; auto using to_u32_range.
  intros i Hi. rewrite swap_byte by auto using to_u32_range || lia.
  rewrite swap_byte by (auto || lia). f_equal. lia.
Qed.

Lemma byte_val_range b : 0 <= byte_val b < 2 ^ 8.
Proof.
  unfold byte_val. pose proof (Byte.to_N_bounded b) as H.
  change (2 ^ 8) with 256. lia.
Qed.

Lemma bits_high x n i : 0 <= x < 2 ^ n -> n <= i -> Z.testbit x i = false.
Proof.
  intros Hx Hi. destruct (Z.ltb_spec n 0) as [Hn|Hn].
  - rewrite Z.pow_neg_r in Hx by lia. lia.
  - rewrite <- (Z.mod_small x (2 ^ n)) by exact Hx.
    apply Z.mod_pow2_bits_high. lia.
Qed.

Ltac small_bits :=
  repeat match goal with
    | |- context [Z.testbit ?x ?l] =>
        first [ rewrite (Z.testbit_neg_r x l) by lia
              | match goal with
                | H : 0 <= x < 2 ^ ?n |- _ => rewrite (bits_high x n l H) by lia
                end ]
    end;
  cbn [andb orb negb]; try reflexivity; try btauto.

Lemma be32_range b0 b1 b2 b3 : is_u32 (be32 b0 b1 b2 b3).
Proof.
  unfold be32.
  pose proof (byte_val_range b0). pose proof (byte_val_range b1).
  pose proof (byte_val_range b2). pose proof (byte_val_range b3).
  generalize dependent (byte_val b0). generalize dependent (byte_val b1).
  generalize dependent (byte_val b2). generalize dependent (byte_val b3).
  intros x3 H3 x2 H2 x1 H1 x0 H0.
  assert (E : Z.lor (Z.shiftl x0 24) (Z.lor (Z.shiftl x1 16) (Z.lor (Z.shiftl x2 8) x3))
              = Z.lor (Z.shiftl x0 24) (Z.lor (Z.shiftl x1 16) (Z.lor (Z.shiftl x2 8) x3))
                mod 2 ^ 32).
  { Z.bitblast; small_bits. }
  rewrite E. apply Z.mod_pos_bound. lia.
Qed.

Lemma be32_byte b0 b1 b2 b3 :
  u32_byte (be32 b0 b1 b2 b3) 0 = byte_val b3 /\
  u32_byte (be32 b0 b1 b2 b3) 1 = byte_val b2 /\
  u32_byte (be32 b0 b1 b2 b3) 2 = byte_val b1 /\
  u32_byte (be32 b0 b1 b2 b3) 3 = byte_val b0.
Proof.
  unfold be32, u32_byte. mask_consts.
  pose proof (byte_val_range b0). pose proof (byte_val_range b1).
  pose proof (byte_val_range b2). pose proof (byte_val_range b3).
  generalize dependent (byte_val b0). generalize dependent (byte_val b1).
  generalize dependent (byte_val b2). generalize dependent (byte_val b3).
  intros x3 H3 x2 H2 x1 H1 x0 H0.
  cbn [Z.mul Pos.mul].
  repeat split; Z.bitblast; small_bits.
Qed.

Lemma is_big_endian_host host_big : is_big_endian host_big = host_big.
Proof. destruct host_big; reflexivity. Qed.

(** On a little-endian host the swap of a field read from the file is the
    value the file holds in wire order. *)
Lemma swap_le32 b0 b1 b2 b3 :
  to_u32 (swap_endianness_u32 (le32 b0 b1 b2 b3)) = be32 b0 b1 b2 b3.
Proof.
  unfold le32.
  pose proof (be32_byte b0 b1 b2 b3) as (E0 & E1 & E2 & E3).
  pose proof (be32_byte b3 b2 b1 b0) as (F0 & F1 & F2 & F3).
  apply u32_bytes_ext; auto using to_u32_range, be32_range.
  intros i Hi. rewrite swap_byte by auto using be32_range.
  assert (i = 0 \/ i = 1 \/ i = 2 \/ i = 3) as [-> | [-> | [-> | ->]]] by lia;
    simpl Z.sub; congruence.
Qed.

(** ** Symbolic execution of the library calls *)

Lemma bind_run {A B} (m : M A) (k : A -> M B) s :
  bind m k s = let (a, s') := m s in k a s'.
Proof. reflexivity. Qed.

Lemma fread_u32_ok e fp s :
  4 <= f_size (contents fp) - pos fp ->
  fread_u32 e fp s =
  ((Some (u32_of_bytes (host_big_endian e)
            (f_byte (contents fp) (pos fp)) (f_byte (contents fp) (pos fp + 1))
            (f_byte (contents fp) (pos fp + 2)) (f_byte (contents fp) (pos fp + 3))),
    advance fp 4),
   log (EvRead (fd fp) 4 1 1) s).
Proof.
  intros H. unfold fread_u32, remaining.
  destruct (Z.leb_spec 4 (Z.max 0 (f_size (contents fp) - pos fp))); [reflexivity|lia].
Qed.

Lemma fread_u32_short e fp s :
  f_size (contents fp) - pos fp < 4 ->
  fread_u32 e fp s =
  ((None, advance fp (remaining fp)), log (EvRead (fd fp) 4 1 0) s).
Proof.
  intros H. unfold fread_u32, remaining.
  destruct (Z.leb_spec 4 (Z.max 0 (f_size (contents fp) - pos fp))); [lia|reflexivity].
Qed.

(** A header field, once read and normalised, is the wire value on either
    kind of host. *)
Lemma field_normalized host_big b0 b1 b2 b3 :
  (if negb (is_big_endian host_big)
   then to_u32 (swap_endianness_u32 (u32_of_bytes host_big b0 b1 b2 b3))
   else u32_of_bytes host_big b0 b1 b2 b3) = be32 b0 b1 b2 b3.
Proof.
  rewrite is_big_endian_host. destruct host_big; cbn [negb u32_of_bytes].
  - reflexivity.
  - apply swap_le32.
Qed.

Lemma labels_header_normalized host_big b0 b1 b2 b3 c0 c1 c2 c3 :
  (if negb (is_big_endian host_big)
   then {| lh_magic_number :=
             to_u32 (swap_endianness_u32 (u32_of_bytes host_big b0 b1 b2 b3));
           lh_number_of_items :=
             to_u32 (swap_endianness_u32 (u32_of_bytes host_big c0 c1 c2 c3)) |}
   else {| lh_magic_number := u32_of_bytes host_big b0 b1 b2 b3;
           lh_number_of_items := u32_of_bytes host_big c0 c1 c2 c3 |})
  = {| lh_magic_number := be32 b0 b1 b2 b3;
       lh_number_of_items := be32 c0 c1 c2 c3 |}.
Proof.
  rewrite <- (field_normalized host_big b0 b1 b2 b3).
  rewrite <- (field_normalized host_big c0 c1 c2 c3).
  destruct (negb (is_big_endian host_big)); reflexivity.
Qed.

Lemma images_header_normalized host_big b0 b1 b2 b3 c0 c1 c2 c3 d0 d1 d2 d3 g0 g1 g2 g3 :
  (if negb (is_big_endian host_big)
   then {| ih_magic_number :=
             to_u32 (swap_endianness_u32 (u32_of_bytes host_big b0 b1 b2 b3));
           ih_number_of_images :=
             to_u32 (swap_endianness_u32 (u32_of_bytes host_big c0 c1 c2 c3));
           ih_number_of_rows :=
             to_u32 (swap_endianness_u32 (u32_of_bytes host_big d0 d1 d2 d3));
           ih_number_of_columns :=
             to_u32 (swap_endianness_u32 (u32_of_bytes host_big g0 g1 g2 g3)) |}
   else {| ih_magic_number := u32_of_bytes host_big b0 b1 b2 b3;
           ih_number_of_images := u32_of_bytes host_big c0 c1 c2 c3;
           ih_number_of_rows := u32_of_bytes host_big d0 d1 d2 d3;
           ih_number_of_columns := u32_of_bytes host_big g0 g1 g2 g3 |})
  = {| ih_magic_number := be32 b0 b1 b2 b3;
       ih_number_of_images := be32 c0 c1 c2 c3;
       ih_number_of_rows := be32 d0 d1 d2 d3;
       ih_number_of_columns := be32 g0 g1 g2 g3 |}.
Proof.
  rewrite <- (field_normalized host_big b0 b1 b2 b3).
  rewrite <- (field_normalized host_big c0 c1 c2 c3).
  rewrite <- (field_normalized host_big d0 d1 d2 d3).
  rewrite <- (field_normalized host_big g0 g1 g2 g3).
  destruct (negb (is_big_endian host_big)); reflexivity.
Qed.

Lemma log_after_header path k s :
  log (EvRead (next_fd s) 4 1 1) (after_header path k s) = after_header path (S k) s.
Proof.
  unfold log, after_header. cbn [mem brk live open_files next_fd trace].
  f_equal. rewrite <- app_assoc. f_equal. cbn [app repeat]. f_equal.
  symmetry. apply repeat_cons.
Qed.

Ltac read_header_field :=
  rewrite bind_run, fread_u32_ok by (cbn [contents pos advance stream_at]; lia);
  cbn [fd stream_at advance]; rewrite ?log_after_header.

(** *** The header phase of the two loaders *)

Lemma mnist_load_labels_open_fails e s path :
  files e path = None ->
  mnist_load_labels e (Some path) s = (labels_zero, log (EvOpen path false) s).
Proof.
  intros Hf. unfold mnist_load_labels. rewrite bind_run. unfold fopen.
  rewrite Hf. reflexivity.
Qed.

Lemma mnist_load_labels_header e s path f :
  files e path = Some f -> 8 <= f_size f ->
  mnist_load_labels e (Some path) s =
  labels_payload e (stream_at s f 8)
    {| lh_magic_number := wire_u32 f 0; lh_number_of_items := wire_u32 f 4 |}
    (after_header path 2 s).
Proof.
  intros Hf Hsz. unfold mnist_load_labels. rewrite bind_run. unfold fopen.
  rewrite Hf.
  change (mkState (mem s) (brk s) (live s) (next_fd s :: open_files s)
            (S (next_fd s)) (trace s ++ [EvOpen path true]))
    with (after_header path 0 s).
  change (mkFILE (next_fd s) f 0) with (stream_at s f 0).
  do 2 read_header_field.
  cbn [contents pos advance fd lh_magic_number lh_number_of_items stream_at].
  rewrite labels_header_normalized.
  reflexivity.
Qed.

Lemma mnist_load_images_open_fails e s path :
  files e path = None ->
  mnist_load_images e (Some path) s = (images_zero, log (EvOpen path false) s).
Proof.
  intros Hf. unfold mnist_load_images. rewrite bind_run. unfold fopen.
  rewrite Hf. reflexivity.
Qed.

Lemma mnist_load_images_header e s path f :
  files e path = Some f -> 16 <= f_size f ->
  mnist_load_images e (Some path) s =
  images_payload e (stream_at s f 16)
    {| ih_magic_number := wire_u32 f 0; ih_number_of_images := wire_u32 f 4;
       ih_number_of_rows := wire_u32 f 8; ih_number_of_columns := wire_u32 f 12 |}
    (after_header path 4 s).
Proof.
  intros Hf Hsz. unfold mnist_load_images. rewrite bind_run. unfold fopen.
  rewrite Hf.
  change (mkState (mem s) (brk s) (live s) (next_fd s :: open_files s)
            (S (next_fd s)) (trace s ++ [EvOpen path true]))
    with (after_header path 0 s).
  change (mkFILE (next_fd s) f 0) with (stream_at s f 0).
  do 4 read_header_field.
  cbn [contents pos advance fd ih_magic_number ih_number_of_images
       ih_number_of_rows ih_number_of_columns stream_at].
  rewrite images_header_normalized.
  reflexivity.
Qed.

(** *** Rejection while the header is read *)

Lemma header_only_closed path k ev s fp :
  fd fp = next_fd s ->
  touches_payload ev = false ->
  header_only s (snd (fclose fp (log ev (after_header path k s)))).
Proof.
  intros Hfd Hev. unfold header_only, fclose, log, after_header, closed_again.
  rewrite Hfd.
  cbn [snd mem brk live open_files next_fd trace].
  do 4 (split; [reflexivity|]).
  exists (EvOpen path true :: repeat (EvRead (next_fd s) 4 1 1) k
          ++ [ev; EvClose (next_fd s)]).
  split.
  - rewrite <- !app_assoc. reflexivity.
  - cbn [existsb touches_payload orb]. rewrite existsb_app.
    cbn [existsb touches_payload orb]. rewrite Hev, !orb_false_r.
    induction k; [reflexivity|]. cbn [repeat existsb touches_payload]. exact IHk.
Qed.

Lemma header_only_magic path k s fp :
  fd fp = next_fd s ->
  header_only s (snd (fclose fp (after_header path k s))).
Proof.
  intros Hfd. unfold header_only, fclose, after_header, closed_again.
  rewrite Hfd.
  cbn [snd mem brk live open_files next_fd trace].
  do 4 (split; [reflexivity|]).
  exists (EvOpen path true :: repeat (EvRead (next_fd s) 4 1 1) k
          ++ [EvClose (next_fd s)]).
  split.
  - rewrite <- !app_assoc. reflexivity.
  - cbn [existsb touches_payload orb]. rewrite existsb_app.
    cbn [existsb touches_payload orb]. rewrite !orb_false_r.
    induction k; [reflexivity|]. cbn [repeat existsb touches_payload]. exact IHk.
Qed.

Ltac short_header_field :=
  rewrite bind_run, fread_u32_short by (cbn [contents pos advance stream_at]; lia);
  cbn [fd stream_at advance].

Lemma mnist_load_labels_short_header e s path f :
  files e path = Some f -> f_size f < 8 ->
  let (labels, s') := mnist_load_labels e (Some path) s in
  labels = labels_zero /\ header_only s s'.
Proof.
  intros Hf Hsz. unfold mnist_load_labels. rewrite bind_run. unfold fopen.
  rewrite Hf.
  change (mkState (mem s) (brk s) (live s) (next_fd s :: open_files s)
            (S (next_fd s)) (trace s ++ [EvOpen path true]))
    with (after_header path 0 s).
  change (mkFILE (next_fd s) f 0) with (stream_at s f 0).
  destruct (Z.lt_ge_cases (f_size f) 4).
  - short_header_field. split; [reflexivity|].
    apply header_only_closed; reflexivity.
  - read_header_field. short_header_field. split; [reflexivity|].
    apply header_only_closed; reflexivity.
Qed.

Lemma mnist_load_images_short_header e s path f :
  files e path = Some f -> f_size f < 16 ->
  let (images, s') := mnist_load_images e (Some path) s in
  images = images_zero /\ header_only s s'.
Proof.
  intros Hf Hsz. unfold mnist_load_images. rewrite bind_run. unfold fopen.
  rewrite Hf.
  change (mkState (mem s) (brk s) (live s) (next_fd s :: open_files s)
            (S (next_fd s)) (trace s ++ [EvOpen path true]))
    with (after_header path 0 s).
  change (mkFILE (next_fd s) f 0) with (stream_at s f 0).
  destruct (Z.lt_ge_cases (f_size f) 4);
    [|destruct (Z.lt_ge_cases (f_size f) 8);
      [|destruct (Z.lt_ge_cases (f_size f) 12)]].
  - short_header_field. split; [reflexivity|].
    apply header_only_closed; reflexivity.
  - read_header_field. short_header_field. split; [reflexivity|].
    apply header_only_closed; reflexivity.
  - do 2 read_header_field. short_header_field. split; [reflexivity|].
    apply header_only_closed; reflexivity.
  - do 3 read_header_field. short_header_field. split; [reflexivity|].
    apply header_only_closed; reflexivity.
Qed.

Lemma labels_payload_bad_magic e fp header s :
  lh_magic_number header <> MAGIC_NUMBER_LABELS ->
  labels_payload e fp header s = (labels_zero, snd (fclose fp s)).
Proof.
  intros Hm. unfold labels_payload.
  destruct (Z.eqb_spec (lh_magic_number header) MAGIC_NUMBER_LABELS); [contradiction|].
  reflexivity.
Qed.

Lemma images_payload_bad_magic e fp header s :
  ih_magic_number header <> MAGIC_NUMBER_IMAGES ->
  images_payload e fp header s = (images_zero, snd (fclose fp s)).
Proof.
  intros Hm. unfold images_payload.
  destruct (Z.eqb_spec (ih_magic_number header) MAGIC_NUMBER_IMAGES); [contradiction|].
  reflexivity.
Qed.

(** C5. A file whose magic-number field, read in wire order, is not the
    constant of the format is rejected by either loader: the result is the
    all-zero structure ([valid] = 0, null [data]), the heap is left as it
    was, and the library is asked neither to allocate nor to read payload:
    the only calls are [fopen], reads of single header fields and [fclose]. *)
Theorem magic_mismatch_rejected e s path f :
  files e path = Some f ->
  4 <= f_size f ->
  (wire_u32 f 0 <> MAGIC_NUMBER_LABELS ->
   let (labels, s') := mnist_load_labels e (Some path) s in
   labels = labels_zero /\ header_only s s') /\
  (wire_u32 f 0 <> MAGIC_NUMBER_IMAGES ->
   let (images, s') := mnist_load_images e (Some path) s in
   images = images_zero /\ header_only s s').
Proof.
  intros Hf Hsz. split; intros Hm.
  - destruct (Z.lt_ge_cases (f_size f) 8).
    + now apply mnist_load_labels_short_header with (f := f).
    + rewrite (mnist_load_labels_header e s path f) by assumption.
      rewrite labels_payload_bad_magic by exact Hm.
      split; [reflexivity|]. apply header_only_magic; reflexivity.
  - destruct (Z.lt_ge_cases (f_size f) 16).
    + now apply mnist_load_images_short_header with (f := f).
    + rewrite (mnist_load_images_header e s path f) by assumption.
      rewrite images_payload_bad_magic by exact Hm.
      split; [reflexivity|]. apply header_only_magic; reflexivity.
Qed.

Lemma magic_mismatch_rejected_witness :
  let e := host (2 ^ 32) (disk "images" two_images) in
  files e "images"%string = Some two_images /\
  4 <= f_size two_images /\
  wire_u32 two_images 0 <> MAGIC_NUMBER_LABELS /\
  let (labels, s') := mnist_load_labels e (Some "images"%string) start in
  labels = labels_zero /\ header_only start s'.
Proof.
  intros e.
  assert (Hf : files e "images"%string = Some two_images) by reflexivity.
  assert (Hsz : 4 <= f_size two_images) by (cbn; lia).
  assert (Hm : wire_u32 two_images 0 <> MAGIC_NUMBER_LABELS)
    by (vm_compute; discriminate).
  split; [exact Hf|]. split; [exact Hsz|]. split; [exact Hm|].
  exact (proj1 (magic_mismatch_rejected e start "images"%string two_images Hf Hsz) Hm).
Defined.

(** *** The payload phase *)

Lemma to_int_small z : 0 <= z <= INT_MAX -> to_int z = z.
Proof.
  unfold INT_MAX, to_int. intros H.
  rewrite Z.mod_small by (change (2 ^ 32) with 4294967296; lia).
  destruct (Z.ltb_spec z (2 ^ 31)) as [_|Hge]; [reflexivity|].
  change (2 ^ 31) with 2147483648 in Hge. lia.
Qed.

Lemma to_size_t_small z : 0 <= z < 2 ^ 64 -> to_size_t z = z.
Proof. intros H. unfold to_size_t. now apply Z.mod_small. Qed.

Lemma u32_size_arg n : is_u32 n -> to_size_t (1 * to_size_t n) = n /\ to_size_t n = n.
Proof.
  unfold is_u32. intros H.
  assert (Hn : to_size_t n = n).
  { apply to_size_t_small. change (2 ^ 64) with (2 ^ 32 * 2 ^ 32). nia. }
  rewrite Hn, Z.mul_1_l. auto.
Qed.

Lemma wire_u32_range f p : is_u32 (wire_u32 f p).
Proof. unfold wire_u32. apply be32_range. Qed.

(** The size the image loader computes is the product of the three header
    fields whenever that product fits an [int]. *)
Lemma image_size_exact n r c :
  0 <= n * r * c <= INT_MAX ->
  to_int (u32_mul (u32_mul n r) c) = n * r * c.
Proof.
  intros H. unfold u32_mul, to_u32.
  rewrite Z.mul_mod_idemp_l by (change (2 ^ 32) with 4294967296; lia).
  unfold to_int. rewrite Z.mod_mod by (change (2 ^ 32) with 4294967296; lia).
  fold (to_int (n * r * c)). now apply to_int_small.
Qed.

Lemma malloc_grants e n s :
  alloc_ok e n = true ->
  malloc e n s =
  (brk s,
   {| mem := mem s; brk := brk s + Z.max n 1; live := (brk s, n) :: live s;
      open_files := open_files s; next_fd := next_fd s;
      trace := trace s ++ [EvMalloc n (brk s)] |}).
Proof. intros H. unfold malloc. now rewrite H. Qed.

Lemma malloc_refuses e n s :
  alloc_ok e n = false -> malloc e n s = (0, log (EvMalloc n 0) s).
Proof. intros H. unfold malloc. now rewrite H. Qed.

(** Releasing the block allocated last gives back the earlier live blocks. *)
Lemma free_last_block s n :
  Forall (fun b => fst b < brk s) (live s) ->
  filter (fun b => negb (fst b =? brk s)) ((brk s, n) :: live s) = live s.
Proof.
  intros H. cbn [filter fst]. rewrite Z.eqb_refl. cbn [negb].
  induction H as [|b l Hb Hl IH]; [reflexivity|].
  cbn [filter]. destruct (Z.eqb_spec (fst b) (brk s)); [lia|].
  cbn [negb]. now rewrite IH.
Qed.

(** Closing the stream opened last gives back the earlier open streams. *)
Lemma closed_again_restores s :
  Forall (fun i => (i < next_fd s)%nat) (open_files s) ->
  closed_again s = open_files s.
Proof.
  intros H. unfold closed_again. cbn [filter]. rewrite Nat.eqb_refl. cbn [negb].
  induction H as [|i l Hi Hl IH]; [reflexivity|].
  cbn [filter]. destruct (Nat.eqb_spec i (next_fd s)); [lia|].
  cbn [negb]. now rewrite IH.
Qed.

(** The outcome of the payload phase for a header with the right magic
    number that declares [n] bytes of payload, read from a stream with
    [avail] bytes left: allocation failure, short read, or success. *)
Lemma labels_payload_run e fp header s :
  lh_magic_number header = MAGIC_NUMBER_LABELS ->
  is_u32 (lh_number_of_items header) ->
  0 < brk s ->
  let n := lh_number_of_items header in
  let got := Z.min n (remaining fp) in
  let loaded :=
    {| mem := store_bytes (mem s) (brk s) got (fun i => f_byte (contents fp) (pos fp + i));
       brk := brk s + Z.max n 1;
       live := (brk s, n) :: live s;
       open_files := open_files s; next_fd := next_fd s;
       trace := (trace s ++ [EvMalloc n (brk s)]) ++ [EvRead (fd fp) 1 n got] |} in
  labels_payload e fp header s =
  if alloc_ok e n then
    if got =? n then
      ({| labels_count := to_int n; labels_data := brk s; labels_valid := 1 |},
       snd (fclose fp loaded))
    else
      (labels_zero, snd (free (brk s) (snd (fclose fp loaded))))
  else (labels_zero, log (EvMalloc n 0) s).
Proof.
  intros Hm Hn Hbrk n got loaded. unfold labels_payload.
  rewrite Hm, Z.eqb_refl. cbn [negb].
  destruct (u32_size_arg _ Hn) as [E1 E2]. fold n in E1, E2 |- *. rewrite E1, E2.
  rewrite bind_run. destruct (alloc_ok e n) eqn:Ha.
  - rewrite malloc_grants by exact Ha.
    destruct (Z.eqb_spec (brk s) 0); [lia|].
    rewrite bind_run. unfold fread_bytes.
    cbn [mem brk live open_files next_fd trace].
    fold got. fold loaded.
    destruct (got =? n); reflexivity.
  - rewrite malloc_refuses by exact Ha. reflexivity.
Qed.

Lemma to_size_t_idem z : to_size_t (1 * to_size_t z) = to_size_t z.
Proof.
  unfold to_size_t. rewrite Z.mul_1_l. apply Z.mod_mod.
  change (2 ^ 64) with 18446744073709551616. lia.
Qed.

(** The image loader requests [to_size_t size] bytes, [size] being the
    [int] it computes from the header. *)
Lemma images_payload_run e fp header s :
  ih_magic_number header = MAGIC_NUMBER_IMAGES ->
  0 < brk s ->
  let size := to_int (u32_mul (u32_mul (ih_number_of_images header)
                                       (ih_number_of_rows header))
                              (ih_number_of_columns header)) in
  let n := to_size_t size in
  let got := Z.min n (remaining fp) in
  let loaded :=
    {| mem := store_bytes (mem s) (brk s) got (fun i => f_byte (contents fp) (pos fp + i));
       brk := brk s + Z.max n 1;
       live := (brk s, n) :: live s;
       open_files := open_files s; next_fd := next_fd s;
       trace := (trace s ++ [EvMalloc n (brk s)]) ++ [EvRead (fd fp) 1 n got] |} in
  images_payload e fp header s =
  if alloc_ok e n then
    if got =? n then
      ({| images_count := to_int (ih_number_of_images header);
          images_rows := to_int (ih_number_of_rows header);
          images_columns := to_int (ih_number_of_columns header);
          images_data := brk s; images_valid := 1 |},
       snd (fclose fp loaded))
    else
      (images_zero, snd (free (brk s) (snd (fclose fp loaded))))
  else (images_zero, log (EvMalloc n 0) s).
Proof.
  intros Hm Hbrk size n got loaded. unfold images_payload.
  rewrite Hm, Z.eqb_refl. cbn [negb]. cbv zeta.
  fold size. rewrite to_size_t_idem. fold n.
  rewrite bind_run. destruct (alloc_ok e n) eqn:Ha.
  - rewrite malloc_grants by exact Ha.
    destruct (Z.eqb_spec (brk s) 0); [lia|].
    rewrite bind_run. unfold fread_bytes.
    cbn [mem brk live open_files next_fd trace].
    fold got. fold loaded.
    destruct (got =? n); reflexivity.
  - rewrite malloc_refuses by exact Ha. reflexivity.
Qed.

Lemma image_request_exact n r c :
  0 <= n * r * c <= INT_MAX ->
  to_size_t (to_int (u32_mul (u32_mul n r) c)) = n * r * c.
Proof.
  intros H. rewrite image_size_exact by exact H.
  apply to_size_t_small. unfold INT_MAX in H.
  change (2 ^ 64) with 18446744073709551616. lia.
Qed.

(** *** Whole runs on well-formed files *)

Lemma remaining_stream s f p : remaining (stream_at s f p) = Z.max 0 (f_size f - p).
Proof. reflexivity. Qed.

Lemma store_bytes_inside m p n src i :
  0 <= i < n -> store_bytes m p n src (p + i) = Some (src i).
Proof.
  intros H. unfold store_bytes.
  destruct (Z.leb_spec p (p + i)); [|lia].
  destruct (Z.ltb_spec (p + i) (p + n)); [|lia].
  cbn [andb]. f_equal. f_equal. lia.
Qed.

(** A label file that declares [n <= INT_MAX] labels and holds them all is
    loaded whenever the allocator grants the buffer: the count is [n], the
    buffer is a live block of exactly [n] bytes that holds the labels in
    file order, and the stream is closed again. *)
Lemma labels_file_loaded e s path f :
  state_ok s ->
  files e path = Some f ->
  wire_u32 f 0 = MAGIC_NUMBER_LABELS ->
  let n := wire_u32 f 4 in
  n <= INT_MAX ->
  8 + n <= f_size f ->
  alloc_ok e n = true ->
  let (labels, s') := mnist_load_labels e (Some path) s in
  labels_valid labels = 1 /\
  labels_count labels = n /\
  labels_data labels = brk s /\
  live s' = (labels_data labels, labels_count labels) :: live s /\
  (forall i, 0 <= i < n ->
             mnist_get_label (mem s') labels i = Some (f_byte f (8 + i))) /\
  open_files s' = open_files s.
Proof.
  intros (Hbrk & Hlive & Hopen) Hf Hm n Hmax Hsz Ha.
  pose proof (wire_u32_range f 4) as Hn. fold n in Hn. unfold is_u32 in Hn.
  rewrite (mnist_load_labels_header e s path f) by (assumption || lia).
  rewrite labels_payload_run by (assumption || apply wire_u32_range).
  cbn [lh_number_of_items]. fold n. rewrite Ha, remaining_stream.
  replace (Z.min n (Z.max 0 (f_size f - 8))) with n by lia.
  rewrite Z.eqb_refl.
  cbn [snd fclose after_header labels_valid labels_count labels_data
       mem brk live open_files next_fd trace fd stream_at contents pos].
  rewrite to_int_small by lia.
  repeat split.
  - intros i Hi. unfold mnist_get_label. cbn [labels_data].
    now rewrite store_bytes_inside.
  - now apply closed_again_restores.
Qed.

(** An image file whose header declares [n * r * c <= INT_MAX] bytes of
    pixels and holds them all is loaded whenever the allocator grants the
    buffer; the buffer is a live block of exactly
    [count * rows * columns] bytes. *)
Lemma images_file_loaded e s path f :
  state_ok s ->
  files e path = Some f ->
  wire_u32 f 0 = MAGIC_NUMBER_IMAGES ->
  let n := wire_u32 f 4 in
  let r := wire_u32 f 8 in
  let c := wire_u32 f 12 in
  n <= INT_MAX -> r <= INT_MAX -> c <= INT_MAX ->
  n * r * c <= INT_MAX ->
  16 + n * r * c <= f_size f ->
  alloc_ok e (n * r * c) = true ->
  let (images, s') := mnist_load_images e (Some path) s in
  images_valid images = 1 /\
  images_count images = n /\ images_rows images = r /\ images_columns images = c /\
  images_data images = brk s /\
  live s' = (images_data images,
             images_count images * images_rows images * images_columns images)
            :: live s /\
  (forall i, 0 <= i < n * r * c ->
             mem s' (images_data images + i) = Some (f_byte f (16 + i))) /\
  open_files s' = open_files s.
Proof.
  intros (Hbrk & Hlive & Hopen) Hf Hm n r c Hn Hr Hc Hmax Hsz Ha.
  pose proof (wire_u32_range f 4) as Rn. fold n in Rn.
  pose proof (wire_u32_range f 8) as Rr. fold r in Rr.
  pose proof (wire_u32_range f 12) as Rc. fold c in Rc.
  unfold is_u32 in Rn, Rr, Rc.
  assert (Hp : 0 <= n * r * c) by nia.
  rewrite (mnist_load_images_header e s path f) by (assumption || lia).
  rewrite images_payload_run by assumption.
  cbn [ih_number_of_images ih_number_of_rows ih_number_of_columns].
  fold n r c. rewrite image_request_exact by lia.
  rewrite Ha, remaining_stream.
  replace (Z.min (n * r * c) (Z.max 0 (f_size f - 16))) with (n * r * c) by lia.
  rewrite Z.eqb_refl.
  cbn [snd fclose after_header images_valid images_count images_rows
       images_columns images_data
       mem brk live open_files next_fd trace fd stream_at contents pos].
  rewrite !to_int_small by lia.
  repeat split.
  - intros i Hi. now rewrite store_bytes_inside.
  - now apply closed_again_restores.
Qed.

(** A label file with a good header and fewer labels than it declares is
    rejected, and the buffer allocated for it is released: the live blocks
    are those of before. *)
Lemma labels_truncated_rejected e s path f :
  state_ok s ->
  files e path = Some f ->
  8 <= f_size f ->
  wire_u32 f 0 = MAGIC_NUMBER_LABELS ->
  f_size f - 8 < wire_u32 f 4 ->
  let (labels, s') := mnist_load_labels e (Some path) s in
  labels = labels_zero /\ live s' = live s.
Proof.
  intros (Hbrk & Hlive & Hopen) Hf Hsz Hm Hshort.
  rewrite (mnist_load_labels_header e s path f) by (assumption || lia).
  rewrite labels_payload_run by (assumption || apply wire_u32_range).
  cbn [lh_number_of_items]. rewrite remaining_stream.
  destruct (alloc_ok e (wire_u32 f 4)); [|split; reflexivity].
  destruct (Z.eqb_spec (Z.min (wire_u32 f 4) (Z.max 0 (f_size f - 8))) (wire_u32 f 4));
    [lia|].
  split; [reflexivity|].
  cbn [snd free fclose after_header mem brk live open_files next_fd trace].
  now apply free_last_block.
Qed.

(** The same for an image file, as long as the size its header declares
    fits an [int]. *)
Lemma images_truncated_rejected e s path f :
  state_ok s ->
  files e path = Some f ->
  16 <= f_size f ->
  wire_u32 f 0 = MAGIC_NUMBER_IMAGES ->
  let declared := wire_u32 f 4 * wire_u32 f 8 * wire_u32 f 12 in
  declared <= INT_MAX ->
  f_size f - 16 < declared ->
  let (images, s') := mnist_load_images e (Some path) s in
  images = images_zero /\ live s' = live s.
Proof.
  intros (Hbrk & Hlive & Hopen) Hf Hsz Hm declared Hmax Hshort.
  pose proof (wire_u32_range f 4) as Rn.
  pose proof (wire_u32_range f 8) as Rr.
  pose proof (wire_u32_range f 12) as Rc.
  unfold is_u32 in Rn, Rr, Rc.
  assert (Hp : 0 <= declared) by (unfold declared; nia).
  rewrite (mnist_load_images_header e s path f) by (assumption || lia).
  rewrite images_payload_run by assumption.
  cbn [ih_number_of_images ih_number_of_rows ih_number_of_columns].
  fold declared. rewrite image_request_exact by (unfold declared in *; lia).
  fold declared. rewrite remaining_stream.
  destruct (alloc_ok e declared); [|split; reflexivity].
  destruct (Z.eqb_spec (Z.min declared (Z.max 0 (f_size f - 16))) declared); [lia|].
  split; [reflexivity|].
  cbn [snd free fclose after_header mem brk live open_files next_fd trace].
  now apply free_last_block.
Qed.

(** *** The view of an image *)

Lemma mnist_get_image_offset images index :
  0 <= images_count images * images_rows images * images_columns images <= INT_MAX ->
  0 <= index < images_count images ->
  image_data (mnist_get_image images index)
  = images_data images + images_rows images * images_columns images * index.
Proof.
  intros Hsize Hindex.
  unfold mnist_get_image, int_mul. cbn [image_data].
  rewrite (to_int_small (images_rows images * images_columns images)) by nia.
  rewrite to_int_small by nia. reflexivity.
Qed.

(** Image [index] of a loaded file is viewed in place: byte [j] of the
    view is byte [rows * columns * index + j] of the pixels of the file. *)
Lemma loaded_image_view e s path f :
  state_ok s ->
  files e path = Some f ->
  wire_u32 f 0 = MAGIC_NUMBER_IMAGES ->
  let n := wire_u32 f 4 in
  let r := wire_u32 f 8 in
  let c := wire_u32 f 12 in
  n <= INT_MAX -> r <= INT_MAX -> c <= INT_MAX ->
  n * r * c <= INT_MAX ->
  16 + n * r * c <= f_size f ->
  alloc_ok e (n * r * c) = true ->
  let (images, s') := mnist_load_images e (Some path) s in
  forall index j,
    0 <= index < n -> 0 <= j < r * c ->
    mem s' (image_data (mnist_get_image images index) + j)
    = Some (f_byte f (16 + (r * c * index + j))).
Proof.
  intros Hs Hf Hm n r c Hn Hr Hc Hmax Hsz Ha.
  pose proof (images_file_loaded e s path f Hs Hf Hm Hn Hr Hc Hmax Hsz Ha) as H.
  destruct (mnist_load_images e (Some path) s) as [images s'].
  destruct H as (_ & En & Er & Ec & _ & _ & Hpix & _).
  fold n r c in En, Er, Ec.
  pose proof (wire_u32_range f 4) as Rn. fold n in Rn.
  pose proof (wire_u32_range f 8) as Rr. fold r in Rr.
  pose proof (wire_u32_range f 12) as Rc. fold c in Rc.
  unfold is_u32 in Rn, Rr, Rc.
  intros index j Hi Hj.
  rewrite mnist_get_image_offset by (rewrite ?En, ?Er, ?Ec; nia).
  rewrite Er, Ec, <- Z.add_assoc. apply Hpix. nia.
Qed.

Lemma to_int_range z : - 2 ^ 31 <= to_int z < 2 ^ 31.
Proof.
  unfold to_int. pose proof (Z.mod_pos_bound z (2 ^ 32) ltac:(lia)).
  destruct (Z.ltb_spec (z mod 2 ^ 32) (2 ^ 31)); lia.
Qed.

(** The buffer of an image set marked valid has at most [INT_MAX] bytes:
    its size went through an [int], and a file cannot supply the bytes of
    a negative size taken as a [size_t]. *)
Lemma loaded_images_fit_int e s path f :
  state_ok s ->
  files e path = Some f ->
  f_size f < 2 ^ 63 ->
  let (images, s') := mnist_load_images e (Some path) s in
  images_valid images = 1 ->
  exists n, images_data images = brk s /\
            live s' = (images_data images, n) :: live s /\ 0 <= n <= INT_MAX.
Proof.
  intros (Hbrk & Hlive & Hopen) Hf Hsz.
  destruct (Z.lt_ge_cases (f_size f) 16) as [Hshort|Hfull].
  { pose proof (mnist_load_images_short_header e s path f Hf Hshort) as H.
    destruct (mnist_load_images e (Some path) s) as [images s'].
    destruct H as (-> & _). discriminate. }
  rewrite (mnist_load_images_header e s path f) by assumption.
  destruct (Z.eq_dec (wire_u32 f 0) MAGIC_NUMBER_IMAGES) as [Hm|Hm].
  2:{ rewrite images_payload_bad_magic by exact Hm. discriminate. }
  rewrite images_payload_run by assumption.
  cbn [ih_number_of_images ih_number_of_rows ih_number_of_columns].
  rewrite remaining_stream.
  set (size := to_int (u32_mul (u32_mul (wire_u32 f 4) (wire_u32 f 8)) (wire_u32 f 12))).
  pose proof (to_int_range (u32_mul (u32_mul (wire_u32 f 4) (wire_u32 f 8))
                              (wire_u32 f 12))) as Hr.
  fold size in Hr.
  destruct (alloc_ok e (to_size_t size)); [|discriminate].
  destruct (Z.eqb_spec (Z.min (to_size_t size) (Z.max 0 (f_size f - 16)))
              (to_size_t size)) as [Hgot|Hgot]; [|discriminate].
  intros _. cbn [images_data snd fclose after_header live].
  exists (to_size_t size). split; [reflexivity|]. split; [reflexivity|].
  assert (Hn : to_size_t size < 2 ^ 63) by lia.
  unfold to_size_t in *.
  change (2 ^ 31) with 2147483648 in Hr.
  change (2 ^ 63) with 9223372036854775808 in *.
  change (2 ^ 64) with 18446744073709551616 in *.
  unfold INT_MAX.
  destruct (Z.lt_ge_cases size 0) as [Hneg|Hpos].
  - exfalso.
    assert (E : size mod 18446744073709551616 = size + 18446744073709551616)
      by (symmetry; apply Z.mod_unique with (q := -1); lia).
    lia.
  - rewrite Z.mod_small in * by lia. lia.
Qed.

(** *** Allocation failure *)

(** When the allocator refuses the buffer the loaders return the all-zero
    structure and leave the stream they opened open. *)
Lemma labels_malloc_failure_leaks e s path f :
  0 < brk s ->
  files e path = Some f ->
  8 <= f_size f ->
  wire_u32 f 0 = MAGIC_NUMBER_LABELS ->
  alloc_ok e (wire_u32 f 4) = false ->
  let (labels, s') := mnist_load_labels e (Some path) s in
  labels = labels_zero /\ open_files s' = next_fd s :: open_files s.
Proof.
  intros Hbrk Hf Hsz Hm Ha.
  rewrite (mnist_load_labels_header e s path f) by assumption.
  rewrite labels_payload_run by (assumption || apply wire_u32_range).
  cbn [lh_number_of_items]. rewrite Ha. split; reflexivity.
Qed.

Lemma images_malloc_failure_leaks e s path f :
  0 < brk s ->
  files e path = Some f ->
  16 <= f_size f ->
  wire_u32 f 0 = MAGIC_NUMBER_IMAGES ->
  alloc_ok e (to_size_t (to_int (u32_mul (u32_mul (wire_u32 f 4) (wire_u32 f 8))
                                         (wire_u32 f 12)))) = false ->
  let (images, s') := mnist_load_images e (Some path) s in
  images = images_zero /\ open_files s' = next_fd s :: open_files s.
Proof.
  intros Hbrk Hf Hsz Hm Ha.
  rewrite (mnist_load_images_header e s path f) by assumption.
  rewrite images_payload_run by assumption.
  cbn [ih_number_of_images ih_number_of_rows ih_number_of_columns].
  rewrite Ha. split; reflexivity.
Qed.

(** *** Where the stream is closed *)

(** On every path but the one where [malloc] fails the loaders close the
    stream they opened: the open streams after the call are those of
    before. *)
Lemma labels_stream_closed_unless_malloc_fails e s path :
  state_ok s ->
  let (labels, s') := mnist_load_labels e (Some path) s in
  open_files s' = open_files s \/
  (labels = labels_zero /\
   alloc_ok e (wire_u32_of (files e path) 4) = false /\
   open_files s' = next_fd s :: open_files s).
Proof.
  intros (Hbrk & Hlive & Hopen).
  destruct (files e path) as [f|] eqn:Hf.
  2:{ rewrite mnist_load_labels_open_fails by exact Hf. left. reflexivity. }
  cbn [wire_u32_of].
  destruct (Z.lt_ge_cases (f_size f) 8) as [Hshort|Hfull].
  { pose proof (mnist_load_labels_short_header e s path f Hf Hshort) as H.
    destruct (mnist_load_labels e (Some path) s) as [labels s'].
    destruct H as (_ & _ & _ & _ & Ho & _). left.
    rewrite Ho. now apply closed_again_restores. }
  rewrite (mnist_load_labels_header e s path f) by assumption.
  destruct (Z.eq_dec (wire_u32 f 0) MAGIC_NUMBER_LABELS) as [Hm|Hm].
  - rewrite labels_payload_run by (assumption || apply wire_u32_range).
    cbn [lh_number_of_items].
    destruct (alloc_ok e (wire_u32 f 4)).
    + destruct (_ =? _); left;
        cbn [snd free fclose after_header open_files fd stream_at];
        now apply closed_again_restores.
    + right. repeat split.
  - rewrite labels_payload_bad_magic by exact Hm. left.
    cbn [snd fclose after_header open_files fd stream_at].
    now apply closed_again_restores.
Qed.

Lemma images_stream_closed_unless_malloc_fails e s path :
  state_ok s ->
  let (images, s') := mnist_load_images e (Some path) s in
  open_files s' = open_files s \/
  (images = images_zero /\
   (exists n, alloc_ok e n = false /\ In (EvMalloc n 0) (trace s')) /\
   open_files s' = next_fd s :: open_files s).
Proof.
  intros (Hbrk & Hlive & Hopen).
  destruct (files e path) as [f|] eqn:Hf.
  2:{ rewrite mnist_load_images_open_fails by exact Hf. left. reflexivity. }
  destruct (Z.lt_ge_cases (f_size f) 16) as [Hshort|Hfull].
  { pose proof (mnist_load_images_short_header e s path f Hf Hshort) as H.
    destruct (mnist_load_images e (Some path) s) as [images s'].
    destruct H as (_ & _ & _ & _ & Ho & _). left.
    rewrite Ho. now apply closed_again_restores. }
  rewrite (mnist_load_images_header e s path f) by assumption.
  destruct (Z.eq_dec (wire_u32 f 0) MAGIC_NUMBER_IMAGES) as [Hm|Hm].
  - rewrite images_payload_run by assumption.
    match goal with |- context [alloc_ok e ?n] => destruct (alloc_ok e n) eqn:Ha end.
    + destruct (_ =? _); left;
        cbn [snd free fclose after_header open_files fd stream_at];
        now apply closed_again_restores.
    + right. split; [reflexivity|]. split; [|reflexivity].
      eexists. split; [exact Ha|].
      cbn [log trace]. apply in_or_app. right. left. reflexivity.
  - rewrite images_payload_bad_magic by exact Hm. left.
    cbn [snd fclose after_header open_files fd stream_at].
    now apply closed_again_restores.
Qed.

(** ** The byte swap, the loaders and the accessors *)

(** C7. The normalisation of a 32-bit header field,
    [field = swap_endianness_u32(field)], reverses the bytes of the field
    and is an involution.  For every [u32] value [v], byte [i] of the
    [int] that [swap_endianness_u32] returns, and of the [u32] it becomes
    when stored back into the field, is byte [3 - i] of [v]; swapping
    twice gives [v] back.  On a little-endian host ([is_big_endian]
    returns 0) the swap of a field read from the file is the value the four
    bytes have in wire order; on a big-endian host ([is_big_endian] returns
    1) the field read is that value already and is left alone. *)
Theorem swap_endianness_u32_reverses_bytes (v : Z) (b0 b1 b2 b3 : byte) :
  is_u32 v ->
  let swapped := to_u32 (swap_endianness_u32 v) in
  (forall i, 0 <= i <= 3 ->
             u32_byte (swap_endianness_u32 v) i = u32_byte v (3 - i) /\
             u32_byte swapped i = u32_byte v (3 - i)) /\
  to_u32 (swap_endianness_u32 swapped) = v /\
  (is_big_endian false = false /\
   to_u32 (swap_endianness_u32 (u32_of_bytes false b0 b1 b2 b3)) = be32 b0 b1 b2 b3) /\
  (is_big_endian true = true /\
   u32_of_bytes true b0 b1 b2 b3 = be32 b0 b1 b2 b3).
Proof.
  intros Hv swapped. repeat split.
  - rewrite <- swap_is_int, u32_byte_to_int by assumption.
    now apply swap_byte.
  - now apply swap_byte.
  - now apply swap_involutive.
  - apply swap_le32.
Qed.

Lemma swap_endianness_u32_reverses_bytes_witness :
  is_u32 0x12345678 /\
  let swapped := to_u32 (swap_endianness_u32 0x12345678) in
  swapped = 0x78563412 /\
  to_u32 (swap_endianness_u32 swapped) = 0x12345678 /\
  to_u32 (swap_endianness_u32 (u32_of_bytes false x00 x00 x08 x01)) =
  be32 x00 x00 x08 x01.
Proof.
  assert (Hv : is_u32 0x12345678) by (unfold is_u32; split; [lia | reflexivity]).
  split; [exact Hv|].
  destruct (swap_endianness_u32_reverses_bytes 0x12345678 x00 x00 x08 x01 Hv)
    as (_ & Hinv & (_ & Hle) & _).
  split; [reflexivity|]. split; [exact Hinv | exact Hle].
Defined.

(** C10. With a null path either loader returns the all-zero structure
    (count 0, null buffer, [valid] = 0) and leaves the program state as it
    was: no library call is made, so no file is opened and nothing is read. *)
Theorem null_path_returns_zero (e : env) (s : state) :
  mnist_load_labels e None s =
    ({| labels_count := 0; labels_data := 0; labels_valid := 0 |}, s) /\
  mnist_load_images e None s =
    ({| images_count := 0; images_rows := 0; images_columns := 0;
        images_data := 0; images_valid := 0 |}, s).
Proof. split; reflexivity. Qed.

(** C1. The size of the pixel buffer is computed in 32-bit arithmetic and
    wraps: the file [overflow_images], whose header declares 0x40000001
    images of 4 x 1 pixels, is accepted with a buffer of 4 bytes, while
    [count * rows * columns] is 4294967300. *)
Theorem image_buffer_shorter_than_product :
  let (images, s') :=
    mnist_load_images (host (2 ^ 32) (disk "images" overflow_images))
      (Some "images"%string) start in
  images_valid images = 1 /\
  images_count images = 1073741825 /\
  images_rows images = 4 /\
  images_columns images = 1 /\
  live s' = [(images_data images, 4)] /\
  images_count images * images_rows images * images_columns images = 4294967300.
Proof. vm_compute. repeat split; reflexivity. Qed.

(** C6. The same wrap lets a truncated image file through: the header of
    [overflow_images] is good and declares 4294967300 bytes of pixels, the
    file holds 4 of them, and the result is marked valid. *)
Theorem truncated_image_file_accepted :
  wire_u32 overflow_images 0 = MAGIC_NUMBER_IMAGES /\
  wire_u32 overflow_images 4 * wire_u32 overflow_images 8
    * wire_u32 overflow_images 12 = 4294967300 /\
  f_size overflow_images - 16 = 4 /\
  images_valid
    (fst (mnist_load_images (host (2 ^ 32) (disk "images" overflow_images))
            (Some "images"%string) start)) = 1.
Proof. vm_compute. repeat split; reflexivity. Qed.

(** C3. When [malloc] returns the null pointer either loader returns
    without closing its stream: for the files [greedy_labels] and
    [greedy_images], whose buffers the allocator refuses, the stream the
    loader opened (number 3) is still open after the call. *)
Theorem malloc_failure_leaks_stream :
  open_files start = [] /\
  open_files
    (snd (mnist_load_labels (host (2 ^ 30) (disk "labels" greedy_labels))
            (Some "labels"%string) start)) = [3%nat] /\
  open_files
    (snd (mnist_load_images (host (2 ^ 47) (disk "images" greedy_images))
            (Some "images"%string) start)) = [3%nat].
Proof. vm_compute. repeat split; reflexivity. Qed.

(** C4. The count of a label set is an [int]: the label file
    [huge_labels], which declares 0x80000000 labels and holds them all, is
    loaded into a buffer of 2147483648 bytes with count -2147483648. *)
Theorem labels_count_narrowed :
  let (labels, s') :=
    mnist_load_labels (host (2 ^ 32) (disk "labels" huge_labels))
      (Some "labels"%string) start in
  wire_u32 huge_labels 0 = MAGIC_NUMBER_LABELS /\
  wire_u32 huge_labels 4 = 2147483648 /\
  f_size huge_labels = 8 + 2147483648 /\
  labels_valid labels = 1 /\
  labels_count labels = -2147483648 /\
  live s' = [(labels_data labels, 2147483648)].
Proof. vm_compute. repeat split; reflexivity. Qed.

(** C2, as the code behaves.  The accessors check no bounds.  With the
    bytes [before], [buf] and [after] laid out in memory around the label
    buffer [buf], [mnist_get_label] returns the byte of [buf] for an index
    within [0, count), a byte of [after] for an index from [count] on, and
    a byte of [before] for a negative index.  [mnist_get_image] returns
    for every index the view at [data + rows * columns * index], which for
    [index = count] starts where the buffer ends. *)
Theorem accessors_do_not_check_bounds
    (m : memory) (labels : mnist_labels) (before buf after : list byte)
    (images : mnist_images) (index : Z) :
  let nb := Z.of_nat (List.length before) in
  let na := Z.of_nat (List.length after) in
  mem_holds m (labels_data labels - nb) (before ++ buf ++ after) ->
  labels_count labels = Z.of_nat (List.length buf) ->
  0 <= images_rows images * images_columns images <= INT_MAX ->
  - INT_MAX <= images_rows images * images_columns images * index <= INT_MAX ->
  (0 <= index < labels_count labels ->
   mnist_get_label m labels index = Some (nth (Z.to_nat index) buf x00)) /\
  (labels_count labels <= index < labels_count labels + na ->
   mnist_get_label m labels index =
   Some (nth (Z.to_nat (index - labels_count labels)) after x00)) /\
  (- nb <= index < 0 ->
   mnist_get_label m labels index = Some (nth (Z.to_nat (index + nb)) before x00)) /\
  mnist_get_image images index =
  {| image_rows := images_rows images;
     image_columns := images_columns images;
     image_data :=
       images_data images + images_rows images * images_columns images * index |}.
Proof.
  intros nb na Hm Hc Hrc Hoff.
  assert (Hget : forall i, - nb <= i < Z.of_nat (List.length buf) + na ->
            mnist_get_label m labels i =
            Some (nth (Z.to_nat (i + nb)) (before ++ buf ++ after) x00)).
  { intros i Hi. unfold mnist_get_label.
    replace (labels_data labels + i) with (labels_data labels - nb + (i + nb)) by lia.
    apply Hm. rewrite !length_app. lia. }
  repeat split.
  - intros Hi. rewrite Hget by lia. f_equal.
    rewrite app_nth2 by lia. rewrite app_nth1 by lia. f_equal. lia.
  - intros Hi. rewrite Hget by lia. f_equal.
    rewrite app_nth2 by lia. rewrite app_nth2 by lia. f_equal. lia.
  - intros Hi. rewrite Hget by lia. f_equal.
    rewrite app_nth1 by lia. reflexivity.
  - unfold mnist_get_image, int_mul. f_equal. f_equal.
    rewrite (to_int_small (images_rows images * images_columns images)) by lia.
    set (off := images_rows images * images_columns images * index) in *.
    destruct (Z.le_gt_cases 0 off) as [Hpos|Hneg].
    + apply to_int_small. lia.
    + unfold to_int, INT_MAX in *.
      replace (off mod 2 ^ 32) with (off + 2 ^ 32).
      * destruct (Z.ltb_spec (off + 2 ^ 32) (2 ^ 31)); lia.
      * apply Z.mod_unique with (q := -1); lia.
Qed.

Lemma accessors_do_not_check_bounds_witness :
  let m := crowded_memory in
  let labels := crowded_labels in
  let images := crowded_images in
  mnist_get_label m labels 2 = Some (byte_of_Z 42) /\
  mnist_get_image images 2 =
  {| image_rows := 2; image_columns := 2; image_data := 0x2000 + 8 |}.
Proof.
  intros m labels images.
  destruct (accessors_do_not_check_bounds m labels
              (bytes_of [9]) (bytes_of [7; 3]) (bytes_of [42]) images 2)
    as (_ & Hafter & _ & Hview).
  - intros i Hi. cbn in Hi.
    assert (i = 0 \/ i = 1 \/ i = 2 \/ i = 3) as [-> | [-> | [-> | ->]]] by lia;
      reflexivity.
  - reflexivity.
  - cbn. unfold INT_MAX. lia.
  - cbn. unfold INT_MAX. lia.
  - split.
    + apply Hafter. cbn. lia.
    + exact Hview.
Defined.

(** C2 does not hold of the code: with an index outside [0, count) the
    accessors do not fail, they return what lies next to the buffer.  In [crowded_memory],
    [mnist_get_label] at index [count] and at index -1 returns the bytes
    after and before the label buffer, and [mnist_get_image] at index
    [count] returns a view of the bytes after the pixel buffer. *)
Lemma out_of_range_access_reads_neighbours :
  ~ (0 <= labels_count crowded_labels < labels_count crowded_labels) /\
  mnist_get_label crowded_memory crowded_labels (labels_count crowded_labels)
    = Some (byte_of_Z 42) /\
  mnist_get_label crowded_memory crowded_labels (-1) = Some (byte_of_Z 9) /\
  let view := mnist_get_image crowded_images (images_count crowded_images) in
  image_data view = images_data crowded_images + 8 /\
  crowded_memory (image_data view) = Some (byte_of_Z 99).
Proof.
  split; [cbn; lia|]. vm_compute. repeat split; reflexivity.
Qed.

(** C8. For a valid image set, whose buffer holds
    [count * rows * columns] bytes (a size that fits the [int] it was
    allocated with), and an index within [0, count), [mnist_get_image]
    returns a view with the rows and columns of the set whose data pointer
    is [data + rows * columns * index]; the [rows * columns] bytes of the
    view lie inside the buffer, and reading the view reads the buffer:
    nothing is copied.  This covers every set that [mnist_load_images]
    marks valid and that satisfies the invariant of image sets: its size
    fits an [int].  For the file of two 2 x 2 images with pixels 1 .. 8,
    the view of image 1 holds 5, 6, 7, 8; for the file of labels 7 and 3,
    [mnist_get_label] returns 7 at index 0 and 3 at index 1. *)
Theorem get_image_is_a_view_of_the_buffer :
  (forall (images : mnist_images) (index : Z),
     let size := images_count images * images_rows images * images_columns images in
     let pixels := images_rows images * images_columns images in
     0 <= size <= INT_MAX ->
     0 <= index < images_count images ->
     let view := mnist_get_image images index in
     image_rows view = images_rows images /\
     image_columns view = images_columns images /\
     image_data view = images_data images + pixels * index /\
     0 <= pixels /\
     images_data images <= image_data view /\
     image_data view + pixels <= images_data images + size /\
     forall (m : memory) (j : Z),
       m (image_data view + j) = m (images_data images + (pixels * index + j))) /\
  (forall (e : env) (s : state) (path : string) (f : file),
     state_ok s -> files e path = Some f -> f_size f < 2 ^ 63 ->
     let (images, s') := mnist_load_images e (Some path) s in
     images_valid images = 1 ->
     images_invariant s' images ->
     0 <= images_count images * images_rows images * images_columns images
       <= INT_MAX) /\
  (let (images, s') :=
     mnist_load_images (host (2 ^ 32) (disk "images" two_images))
       (Some "images"%string) start in
   let view := mnist_get_image images 1 in
   images_valid images = 1 /\
   image_rows view = 2 /\ image_columns view = 2 /\
   read_bytes (mem s') (image_data view) 4 = map Some (bytes_of [5; 6; 7; 8])) /\
  (let (labels, s') :=
     mnist_load_labels (host (2 ^ 32) (disk "labels" two_labels))
       (Some "labels"%string) start in
   labels_valid labels = 1 /\
   mnist_get_label (mem s') labels 0 = Some (byte_of_Z 7) /\
   mnist_get_label (mem s') labels 1 = Some (byte_of_Z 3)).
Proof.
  split; [|split; [|split; vm_compute; repeat split; reflexivity]].
  - intros images index size pixels Hsize Hindex view.
    assert (Hp : 0 <= pixels <= INT_MAX) by (unfold size, pixels in *; nia).
    assert (Ho : 0 <= pixels * index /\ pixels * index + pixels <= size)
      by (unfold size, pixels in *; nia).
    assert (Hd : image_data view = images_data images + pixels * index)
      by (apply mnist_get_image_offset; assumption).
    repeat split; try reflexivity; try lia; try exact Hd.
    intros m j. rewrite Hd. f_equal. lia.
  - intros e s path f Hs Hf Hsz.
    pose proof (loaded_images_fit_int e s path f Hs Hf Hsz) as H.
    destruct (mnist_load_images e (Some path) s) as [images s'].
    intros Hvalid Hinv. destruct (H Hvalid) as (n & Hdata & Hlive & Hn).
    unfold images_invariant in Hinv. rewrite Hlive in Hinv.
    destruct Hinv as [Hhead|Htail].
    + injection Hhead as <-. exact Hn.
    + exfalso. destruct Hs as (_ & Hfresh & _).
      rewrite Forall_forall in Hfresh. apply Hfresh in Htail.
      cbn [fst] in Htail. lia.
Qed.

Lemma get_image_is_a_view_of_the_buffer_witness :
  let images := crowded_images in
  0 <= images_count images * images_rows images * images_columns images <= INT_MAX /\
  0 <= 1 < images_count images /\
  image_data (mnist_get_image images 1) = images_data images + 4.
Proof.
  intros images.
  assert (Hsize : 0 <= images_count images * images_rows images
                       * images_columns images <= INT_MAX)
    by (cbn; unfold INT_MAX; lia).
  assert (Hindex : 0 <= 1 < images_count images) by (cbn; lia).
  split; [exact Hsize|]. split; [exact Hindex|].
  destruct (proj1 get_image_is_a_view_of_the_buffer images 1 Hsize Hindex)
    as (_ & _ & Hd & _).
  exact Hd.
Defined.

(** ** Printing *)

Lemma string_append_assoc (a b c : string) :
  ((a ++ b) ++ c = a ++ (b ++ c))%string.
Proof.
  induction a as [|x a IH]; [reflexivity|].
  cbn [String.append]. now rewrite IH.
Qed.

Section Printing.

Variable m : memory.
Variable image : mnist_image.
Variable threshold : byte.
Variable pixel : nat -> nat -> byte.
Hypothesis Hview : view_holds m image pixel.

Lemma pixel_offset (r c : nat) :
  Z.of_nat r < image_rows image -> Z.of_nat c < image_columns image ->
  int_add (Z.of_nat c) (int_mul (Z.of_nat r) (image_columns image))
  = Z.of_nat c + Z.of_nat r * image_columns image.
Proof.
  destruct Hview as (Hmax & _). intros Hrow Hcol.
  assert (Hb : image_rows image * image_columns image <= INT_MAX)
    by (apply Hmax; lia).
  unfold int_add, int_mul.
  rewrite (to_int_small (Z.of_nat r * image_columns image)) by nia.
  apply to_int_small. nia.
Qed.

Lemma print_columns_render (r : nat) :
  Z.of_nat r < image_rows image ->
  forall n c0 : nat,
    ((0 < n)%nat -> Z.of_nat (c0 + n) <= image_columns image) ->
    print_columns m image threshold (Z.of_nat r) n (Z.of_nat c0)
    = Some (flatten (map (fun c => glyph threshold (pixel r c)) (seq c0 n))).
Proof.
  intros Hrow. induction n as [|n IH]; intros c0 Hc0.
  - reflexivity.
  - cbn [print_columns seq map flatten fold_right].
    rewrite pixel_offset by lia.
    destruct Hview as (_ & Hpix).
    rewrite Hpix by lia.
    replace (Z.of_nat c0 + 1) with (Z.of_nat (S c0)) by lia.
    rewrite IH by lia. reflexivity.
Qed.

Lemma print_rows_render :
  forall n r0 : nat,
    ((0 < n)%nat -> Z.of_nat (r0 + n) <= image_rows image) ->
    print_rows m image threshold n (Z.of_nat r0)
    = Some (flatten
              (map (fun r =>
                      flatten (map (fun c => glyph threshold (pixel r c))
                                 (seq 0 (Z.to_nat (image_columns image))))
                      ++ newline)%string
                 (seq r0 n))).
Proof.
  induction n as [|n IH]; intros r0 Hr0.
  - reflexivity.
  - cbn [print_rows seq map flatten fold_right].
    change 0 with (Z.of_nat 0) at 1.
    rewrite print_columns_render by lia.
    replace (Z.of_nat r0 + 1) with (Z.of_nat (S r0)) by lia.
    rewrite IH by lia.
    f_equal. symmetry. apply string_append_assoc.
Qed.

Lemma mnist_print_image_render :
  mnist_print_image m image threshold
  = Some (render threshold (Z.to_nat (image_rows image))
            (Z.to_nat (image_columns image)) pixel).
Proof.
  unfold mnist_print_image, render.
  change 0 with (Z.of_nat 0) at 1.
  rewrite print_rows_render; [reflexivity|]. lia.
Qed.

End Printing.

Lemma glyph_ink threshold v :
  (byte_val threshold <= byte_val v -> glyph threshold v = "##"%string) /\
  (byte_val v < byte_val threshold -> glyph threshold v = "  "%string).
Proof.
  unfold glyph. destruct (Z.leb_spec (byte_val threshold) (byte_val v)); split;
    intros; (reflexivity || lia).
Qed.

(** C9. The text printed for a view is a function of the pixels of the
    view and of the threshold: whatever else the memory holds, it is the
    grid that has, row by row, the glyph [##] for a pixel whose value is at
    least the threshold and two blanks for any other pixel, a line break
    after each row and an empty line at the end. *)
Theorem print_image_renders_the_grid
    (m m' : memory) (image : mnist_image) (threshold : byte)
    (pixel : nat -> nat -> byte) :
  view_holds m image pixel ->
  view_holds m' image pixel ->
  mnist_print_image m image threshold
  = Some (render threshold (Z.to_nat (image_rows image))
            (Z.to_nat (image_columns image)) pixel) /\
  mnist_print_image m' image threshold = mnist_print_image m image threshold /\
  forall v : byte,
    (byte_val threshold <= byte_val v -> glyph threshold v = "##"%string) /\
    (byte_val v < byte_val threshold -> glyph threshold v = "  "%string).
Proof.
  intros H H'. split; [|split].
  - now apply mnist_print_image_render.
  - rewrite (mnist_print_image_render m' image threshold pixel H').
    now rewrite (mnist_print_image_render m image threshold pixel H).
  - intros v. apply glyph_ink.
Qed.

Lemma print_image_renders_the_grid_witness :
  let image := mnist_get_image crowded_images 1 in
  let pixel := fun r c : nat => byte_of_Z (5 + 2 * Z.of_nat r + Z.of_nat c) in
  let m' := store_bytes (fun _ => None) 0x2004 4
              (fun i => byte_of_Z (5 + i)) in
  view_holds crowded_memory image pixel /\
  view_holds m' image pixel /\
  mnist_print_image crowded_memory image (byte_of_Z 6)
  = Some (render (byte_of_Z 6) 2 2 pixel) /\
  mnist_print_image m' image (byte_of_Z 6)
  = mnist_print_image crowded_memory image (byte_of_Z 6).
Proof.
  intros image pixel m'.
  assert (H : view_holds crowded_memory image pixel).
  { unfold view_holds. cbn [image image_rows image_columns mnist_get_image crowded_images
                           images_rows images_columns].
    unfold INT_MAX. split; [lia|].
    intros [|[|r]] [|[|c]] Hr Hc; try lia; reflexivity. }
  assert (H' : view_holds m' image pixel).
  { unfold view_holds. cbn [image image_rows image_columns mnist_get_image crowded_images
                           images_rows images_columns].
    unfold INT_MAX. split; [lia|].
    intros [|[|r]] [|[|c]] Hr Hc; try lia; reflexivity. }
  split; [exact H|]. split; [exact H'|].
  destruct (print_image_renders_the_grid crowded_memory m' image (byte_of_Z 6) pixel H H')
    as (Hprint & Hsame & _).
  split; [exact Hprint | exact Hsame].
Defined.
(** ** Every path of the loaders *)

Lemma mnist_load_labels_short e s path f :
  files e path = Some f -> f_size f < 8 ->
  mnist_load_labels e (Some path) s =
  (labels_zero,
   snd (fclose (stream_at s f 0)
          (log (EvRead (next_fd s) 4 1 0) (after_header path (whole_fields f) s)))).
Proof.
  intros Hf Hsz. unfold mnist_load_labels. rewrite bind_run. unfold fopen.
  rewrite Hf.
  change (mkState (mem s) (brk s) (live s) (next_fd s :: open_files s)
            (S (next_fd s)) (trace s ++ [EvOpen path true]))
    with (after_header path 0 s).
  change (mkFILE (next_fd s) f 0) with (stream_at s f 0).
  unfold whole_fields.
  destruct (Z.lt_ge_cases (f_size f) 4).
  - short_header_field.
    replace (Z.max 0 (f_size f) / 4) with 0
      by (symmetry; apply Z.div_small; lia).
    reflexivity.
  - read_header_field. short_header_field.
    replace (Z.to_nat (Z.max 0 (f_size f) / 4)) with 1%nat.
    + reflexivity.
    + replace (Z.max 0 (f_size f) / 4) with 1; [reflexivity|].
      apply Z.div_unique with (r := Z.max 0 (f_size f) - 4); lia.
Qed.

Lemma mnist_load_images_short e s path f :
  files e path = Some f -> f_size f < 16 ->
  mnist_load_images e (Some path) s =
  (images_zero,
   snd (fclose (stream_at s f 0)
          (log (EvRead (next_fd s) 4 1 0) (after_header path (whole_fields f) s)))).
Proof.
  intros Hf Hsz. unfold mnist_load_images. rewrite bind_run. unfold fopen.
  rewrite Hf.
  change (mkState (mem s) (brk s) (live s) (next_fd s :: open_files s)
            (S (next_fd s)) (trace s ++ [EvOpen path true]))
    with (after_header path 0 s).
  change (mkFILE (next_fd s) f 0) with (stream_at s f 0).
  unfold whole_fields.
  assert (Hq : forall q, 4 * q <= f_size f < 4 * q + 4 -> 0 <= q ->
                    Z.to_nat (Z.max 0 (f_size f) / 4) = Z.to_nat q).
  { intros q Hq Hq0. f_equal.
    symmetry. apply Z.div_unique with (r := Z.max 0 (f_size f) - 4 * q); lia. }
  destruct (Z.lt_ge_cases (f_size f) 4);
    [|destruct (Z.lt_ge_cases (f_size f) 8);
      [|destruct (Z.lt_ge_cases (f_size f) 12)]].
  - short_header_field.
    replace (Z.max 0 (f_size f) / 4) with 0
      by (symmetry; apply Z.div_small; lia).
    reflexivity.
  - read_header_field. short_header_field. rewrite (Hq 1) by lia. reflexivity.
  - do 2 read_header_field. short_header_field. rewrite (Hq 2) by lia. reflexivity.
  - do 3 read_header_field. short_header_field. rewrite (Hq 3) by lia. reflexivity.
Qed.

(** The six ways a call of [mnist_load_labels] on a path ends. *)
Lemma mnist_load_labels_cases e s path (P : mnist_labels * state -> Prop) :
  0 < brk s ->
  (files e path = None -> P (labels_zero, log (EvOpen path false) s)) ->
  (forall f, files e path = Some f -> f_size f < 8 ->
     P (labels_zero,
        snd (fclose (stream_at s f 0)
               (log (EvRead (next_fd s) 4 1 0)
                  (after_header path (whole_fields f) s))))) ->
  (forall f, files e path = Some f -> 8 <= f_size f ->
     wire_u32 f 0 <> MAGIC_NUMBER_LABELS ->
     P (labels_zero, snd (fclose (stream_at s f 8) (after_header path 2 s)))) ->
  (forall f, files e path = Some f -> 8 <= f_size f ->
     wire_u32 f 0 = MAGIC_NUMBER_LABELS ->
     alloc_ok e (wire_u32 f 4) = false ->
     P (labels_zero, log (EvMalloc (wire_u32 f 4) 0) (after_header path 2 s))) ->
  (forall f, files e path = Some f -> 8 <= f_size f ->
     wire_u32 f 0 = MAGIC_NUMBER_LABELS ->
     alloc_ok e (wire_u32 f 4) = true ->
     f_size f - 8 < wire_u32 f 4 ->
     P (labels_zero,
        snd (free (brk s)
               (snd (fclose (stream_at s f 8)
                       (after_payload path 2 s f (wire_u32 f 4) (f_size f - 8))))))) ->
  (forall f, files e path = Some f -> 8 <= f_size f ->
     wire_u32 f 0 = MAGIC_NUMBER_LABELS ->
     alloc_ok e (wire_u32 f 4) = true ->
     wire_u32 f 4 <= f_size f - 8 ->
     P ({| labels_count := to_int (wire_u32 f 4); labels_data := brk s;
           labels_valid := 1 |},
        snd (fclose (stream_at s f 8)
               (after_payload path 2 s f (wire_u32 f 4) (wire_u32 f 4))))) ->
  P (mnist_load_labels e (Some path) s).
Proof.
  intros Hbrk Hnone Hshort Hmagic Hrefused Hcut Hok.
  destruct (files e path) as [f|] eqn:Hf.
  2:{ rewrite mnist_load_labels_open_fails by exact Hf. now apply Hnone. }
  destruct (Z.lt_ge_cases (f_size f) 8) as [Hlt|Hge].
  { rewrite (mnist_load_labels_short e s path f) by assumption. now apply Hshort. }
  rewrite (mnist_load_labels_header e s path f) by assumption.
  destruct (Z.eq_dec (wire_u32 f 0) MAGIC_NUMBER_LABELS) as [Hm|Hm].
  2:{ rewrite labels_payload_bad_magic by exact Hm. now apply Hmagic. }
  rewrite labels_payload_run by (assumption || apply wire_u32_range).
  cbn [lh_number_of_items]. rewrite remaining_stream.
  pose proof (wire_u32_range f 4) as Hn. unfold is_u32 in Hn.
  destruct (alloc_ok e (wire_u32 f 4)) eqn:Ha.
  2:{ now apply Hrefused. }
  destruct (Z.lt_ge_cases (f_size f - 8) (wire_u32 f 4)) as [Hc|Hc].
  - replace (Z.min (wire_u32 f 4) (Z.max 0 (f_size f - 8))) with (f_size f - 8) by lia.
    destruct (Z.eqb_spec (f_size f - 8) (wire_u32 f 4)); [lia|].
    now apply Hcut.
  - replace (Z.min (wire_u32 f 4) (Z.max 0 (f_size f - 8))) with (wire_u32 f 4) by lia.
    rewrite Z.eqb_refl. now apply Hok.
Qed.

Lemma to_size_t_range z : 0 <= to_size_t z < 2 ^ 64.
Proof. unfold to_size_t. apply Z.mod_pos_bound. lia. Qed.

(** The six ways a call of [mnist_load_images] on a path ends. *)
Lemma mnist_load_images_cases e s path (P : mnist_images * state -> Prop) :
  0 < brk s ->
  (files e path = None -> P (images_zero, log (EvOpen path false) s)) ->
  (forall f, files e path = Some f -> f_size f < 16 ->
     P (images_zero,
        snd (fclose (stream_at s f 0)
               (log (EvRead (next_fd s) 4 1 0)
                  (after_header path (whole_fields f) s))))) ->
  (forall f, files e path = Some f -> 16 <= f_size f ->
     wire_u32 f 0 <> MAGIC_NUMBER_IMAGES ->
     P (images_zero, snd (fclose (stream_at s f 16) (after_header path 4 s)))) ->
  (forall f, files e path = Some f -> 16 <= f_size f ->
     wire_u32 f 0 = MAGIC_NUMBER_IMAGES ->
     alloc_ok e (to_size_t (image_size f)) = false ->
     P (images_zero,
        log (EvMalloc (to_size_t (image_size f)) 0) (after_header path 4 s))) ->
  (forall f, files e path = Some f -> 16 <= f_size f ->
     wire_u32 f 0 = MAGIC_NUMBER_IMAGES ->
     alloc_ok e (to_size_t (image_size f)) = true ->
     f_size f - 16 < to_size_t (image_size f) ->
     P (images_zero,
        snd (free (brk s)
               (snd (fclose (stream_at s f 16)
                       (after_payload path 4 s f (to_size_t (image_size f))
                          (f_size f - 16))))))) ->
  (forall f, files e path = Some f -> 16 <= f_size f ->
     wire_u32 f 0 = MAGIC_NUMBER_IMAGES ->
     alloc_ok e (to_size_t (image_size f)) = true ->
     to_size_t (image_size f) <= f_size f - 16 ->
     P ({| images_count := to_int (wire_u32 f 4);
           images_rows := to_int (wire_u32 f 8);
           images_columns := to_int (wire_u32 f 12);
           images_data := brk s; images_valid := 1 |},
        snd (fclose (stream_at s f 16)
               (after_payload path 4 s f (to_size_t (image_size f))
                  (to_size_t (image_size f)))))) ->
  P (mnist_load_images e (Some path) s).
Proof.
  intros Hbrk Hnone Hshort Hmagic Hrefused Hcut Hok.
  destruct (files e path) as [f|] eqn:Hf.
  2:{ rewrite mnist_load_images_open_fails by exact Hf. now apply Hnone. }
  destruct (Z.lt_ge_cases (f_size f) 16) as [Hlt|Hge].
  { rewrite (mnist_load_images_short e s path f) by assumption. now apply Hshort. }
  rewrite (mnist_load_images_header e s path f) by assumption.
  destruct (Z.eq_dec (wire_u32 f 0) MAGIC_NUMBER_IMAGES) as [Hm|Hm].
  2:{ rewrite images_payload_bad_magic by exact Hm. now apply Hmagic. }
  rewrite images_payload_run by assumption.
  cbn [ih_number_of_images ih_number_of_rows ih_number_of_columns].
  fold (image_size f). rewrite remaining_stream.
  pose proof (to_size_t_range (image_size f)) as Hn.
  destruct (alloc_ok e (to_size_t (image_size f))) eqn:Ha.
  2:{ now apply Hrefused. }
  destruct (Z.lt_ge_cases (f_size f - 16) (to_size_t (image_size f))) as [Hc|Hc].
  - replace (Z.min (to_size_t (image_size f)) (Z.max 0 (f_size f - 16)))
      with (f_size f - 16) by lia.
    destruct (Z.eqb_spec (f_size f - 16) (to_size_t (image_size f))); [lia|].
    now apply Hcut.
  - replace (Z.min (to_size_t (image_size f)) (Z.max 0 (f_size f - 16)))
      with (to_size_t (image_size f)) by lia.
    rewrite Z.eqb_refl. now apply Hok.
Qed.

Lemma store_bytes_outside m p n src a :
  a < p \/ p + n <= a -> store_bytes m p n src a = m a.
Proof.
  intros H. unfold store_bytes.
  destruct (Z.leb_spec p a); destruct (Z.ltb_spec a (p + n)); cbn [andb];
    try reflexivity; lia.
Qed.

Lemma filter_Forall {A} (P : A -> Prop) (p : A -> bool) (l : list A) :
  Forall P l -> Forall P (filter p l).
Proof.
  intros H. induction H as [|x l Hx Hl IH]; cbn [filter]; [constructor|].
  destruct (p x); [constructor|]; assumption.
Qed.

Lemma Forall_weaken {A} (P Q : A -> Prop) (l : list A) :
  (forall x, P x -> Q x) -> Forall P l -> Forall Q l.
Proof. intros HPQ H. induction H; constructor; auto. Qed.

(** *** What no path does: writing outside the block it allocates *)

Lemma labels_frame e s filepath :
  0 < brk s ->
  let (labels, s') := mnist_load_labels e filepath s in
  brk s <= brk s' /\
  forall a, a < brk s \/ brk s' <= a -> mem s' a = mem s a.
Proof.
  intros Hbrk. destruct filepath as [path|]; [|cbn; split; [lia|reflexivity]].
  apply (mnist_load_labels_cases e s path
           (fun r => let (labels, s') := r in
                     brk s <= brk s' /\
                     forall a, a < brk s \/ brk s' <= a -> mem s' a = mem s a));
    try assumption; intros; cbn [snd fclose free log after_header after_payload mem brk];
    (split; [lia|]); try reflexivity;
    intros a Ha; apply store_bytes_outside; lia.
Qed.

Lemma images_frame e s filepath :
  0 < brk s ->
  let (images, s') := mnist_load_images e filepath s in
  brk s <= brk s' /\
  forall a, a < brk s \/ brk s' <= a -> mem s' a = mem s a.
Proof.
  intros Hbrk. destruct filepath as [path|]; [|cbn; split; [lia|reflexivity]].
  apply (mnist_load_images_cases e s path
           (fun r => let (images, s') := r in
                     brk s <= brk s' /\
                     forall a, a < brk s \/ brk s' <= a -> mem s' a = mem s a));
    try assumption; intros; cbn [snd fclose free log after_header after_payload mem brk];
    (split; [lia|]); try reflexivity;
    intros a Ha; apply store_bytes_outside; lia.
Qed.

(** *** What every path keeps: the invariant of the program state *)

Lemma closed_again_ok s :
  Forall (fun i => (i < next_fd s)%nat) (open_files s) ->
  Forall (fun i => (i < S (next_fd s))%nat) (closed_again s).
Proof.
  intros H. rewrite closed_again_restores by exact H.
  eapply Forall_weaken; [|exact H]. intros x Hx. cbn in Hx. lia.
Qed.


Lemma images_keep_state_ok e s filepath :
  state_ok s ->
  state_ok (snd (mnist_load_images e filepath s)).
Proof.
  intros (Hbrk & Hlive & Hopen).
  destruct filepath as [path|]; [|cbn; repeat split; assumption].
  assert (Hopen' : Forall (fun i => (i < S (next_fd s))%nat)
                     (next_fd s :: open_files s)).
  { constructor; [lia|]. eapply Forall_weaken; [|exact Hopen].
    intros x Hx. cbn in Hx. lia. }
  apply (mnist_load_images_cases e s path (fun r => state_ok (snd r)));
    try assumption; intros; unfold state_ok;
    cbn [snd fclose free log after_header after_payload
         mem brk live open_files next_fd fd stream_at];
    repeat split; try assumption; try lia;
    try (apply closed_again_ok; assumption).
  - apply filter_Forall. constructor; [cbn; lia|].
    eapply Forall_weaken; [|exact Hlive]. intros x Hx. cbn in Hx |- *. lia.
  - constructor; [cbn; lia|].
    eapply Forall_weaken; [|exact Hlive]. intros x Hx. cbn in Hx |- *. lia.
Qed.

(** *** What a valid result says about the file *)


Lemma valid_images_facts e s path :
  state_ok s ->
  let (images, s') := mnist_load_images e (Some path) s in
  images_valid images = 1 ->
  exists f,
    files e path = Some f /\
    wire_u32 f 0 = MAGIC_NUMBER_IMAGES /\
    16 + to_size_t (image_size f) <= f_size f /\
    alloc_ok e (to_size_t (image_size f)) = true /\
    images = {| images_count := to_int (wire_u32 f 4);
                images_rows := to_int (wire_u32 f 8);
                images_columns := to_int (wire_u32 f 12);
                images_data := brk s; images_valid := 1 |} /\
    live s' = (brk s, to_size_t (image_size f)) :: live s /\
    brk s' = brk s + Z.max (to_size_t (image_size f)) 1 /\
    (forall j, 0 <= j < to_size_t (image_size f) ->
               mem s' (brk s + j) = Some (f_byte f (16 + j))) /\
    open_files s' = open_files s.
Proof.
  intros (Hbrk & Hlive & Hopen).
  apply (mnist_load_images_cases e s path
           (fun r => let (images, s') := r in
                     images_valid images = 1 -> exists f, _));
    try assumption; try (intros; discriminate).
  intros f Hf Hsz Hm Ha Hn _. exists f.
  cbn [snd fclose after_payload mem brk live open_files fd stream_at].
  repeat split; try assumption; try lia.
  - intros i Hi. now rewrite store_bytes_inside.
  - now apply closed_again_restores.
Qed.

(** *** All or nothing *)

Lemma labels_all_or_nothing e s filepath :
  state_ok s ->
  let (labels, s') := mnist_load_labels e filepath s in
  (labels = labels_zero /\ live s' = live s) \/
  (labels_valid labels = 1 /\ labels_data labels = brk s /\
   exists n, live s' = (labels_data labels, n) :: live s).
Proof.
  intros (Hbrk & Hlive & Hopen).
  destruct filepath as [path|]; [|left; split; reflexivity].
  apply (mnist_load_labels_cases e s path
           (fun r => let (labels, s') := r in
                     (labels = labels_zero /\ live s' = live s) \/
                     (labels_valid labels = 1 /\ labels_data labels = brk s /\
                      exists n, live s' = (labels_data labels, n) :: live s)));
    try assumption; intros;
    cbn [snd fclose free log after_header after_payload live brk labels_data];
    try (left; split; [reflexivity|]; first [reflexivity | now apply free_last_block]).
  right. repeat split. eexists. reflexivity.
Qed.

Lemma images_all_or_nothing e s filepath :
  state_ok s ->
  let (images, s') := mnist_load_images e filepath s in
  (images = images_zero /\ live s' = live s) \/
  (images_valid images = 1 /\ images_data images = brk s /\
   exists n, live s' = (images_data images, n) :: live s).
Proof.
  intros (Hbrk & Hlive & Hopen).
  destruct filepath as [path|]; [|left; split; reflexivity].
  apply (mnist_load_images_cases e s path
           (fun r => let (images, s') := r in
                     (images = images_zero /\ live s' = live s) \/
                     (images_valid images = 1 /\ images_data images = brk s /\
                      exists n, live s' = (images_data images, n) :: live s)));
    try assumption; intros;
    cbn [snd fclose free log after_header after_payload live brk images_data];
    try (left; split; [reflexivity|]; first [reflexivity | now apply free_last_block]).
  right. repeat split. eexists. reflexivity.
Qed.

Lemma start_ok : state_ok start.
Proof. repeat split; try constructor. Qed.

(** * Further properties of the loaders, the accessors and the printer *)

(** ** When a file is accepted *)

(** X1. [mnist_load_labels] marks its result valid exactly when the file
    can be opened, its first field is the magic number of label files, the
    allocator grants a buffer for the declared number of labels, and the
    file holds at least that many bytes after its 8 header bytes. *)
Theorem labels_accepted_iff (e : env) (s : state) (path : string) :
  0 < brk s ->
  labels_valid (fst (mnist_load_labels e (Some path) s)) = 1 <->
  exists f,
    files e path = Some f /\
    wire_u32 f 0 = MAGIC_NUMBER_LABELS /\
    alloc_ok e (wire_u32 f 4) = true /\
    8 + wire_u32 f 4 <= f_size f.
Proof.
  intros Hbrk.
  apply (mnist_load_labels_cases e s path
           (fun r => labels_valid (fst r) = 1 <->
                     exists f,
                       files e path = Some f /\
                       wire_u32 f 0 = MAGIC_NUMBER_LABELS /\
                       alloc_ok e (wire_u32 f 4) = true /\
                       8 + wire_u32 f 4 <= f_size f));
    try assumption; intros; cbn [fst labels_valid labels_zero];
    (split; [intros Hv; try discriminate
            | intros (f' & Hf' & Hm' & Ha' & Hn'); try congruence;
              try (assert (f' = f) by congruence; subst f';
                   pose proof (wire_u32_range f 4) as Hr; unfold is_u32 in Hr;
                   first [congruence | lia | reflexivity])]).
  exists f. repeat split; try assumption; lia.
Qed.

Lemma labels_accepted_iff_witness :
  0 < brk start /\
  (labels_valid
     (fst (mnist_load_labels (host (2 ^ 32) two_files) (Some "labels"%string) start))
   = 1 <->
   exists f,
     files (host (2 ^ 32) two_files) "labels"%string = Some f /\
     wire_u32 f 0 = MAGIC_NUMBER_LABELS /\
     alloc_ok (host (2 ^ 32) two_files) (wire_u32 f 4) = true /\
     8 + wire_u32 f 4 <= f_size f).
Proof.
  assert (H : 0 < brk start) by (cbn; lia).
  split; [exact H|].
  exact (labels_accepted_iff (host (2 ^ 32) two_files) start "labels"%string H).
Defined.

(** X2. [mnist_load_images] marks its result valid exactly when the file
    can be opened, its first field is the magic number of image files, the
    allocator grants the size the code computes, and the file holds at
    least that many bytes after its 16 header bytes.  The size is the
    product of the three header fields taken modulo 2^32, read as an [int]
    and then as a [size_t]; it is not the product itself. *)
Theorem images_accepted_iff (e : env) (s : state) (path : string) :
  0 < brk s ->
  images_valid (fst (mnist_load_images e (Some path) s)) = 1 <->
  exists f,
    files e path = Some f /\
    wire_u32 f 0 = MAGIC_NUMBER_IMAGES /\
    alloc_ok e (to_size_t (image_size f)) = true /\
    16 + to_size_t (image_size f) <= f_size f.
Proof.
  intros Hbrk.
  apply (mnist_load_images_cases e s path
           (fun r => images_valid (fst r) = 1 <->
                     exists f,
                       files e path = Some f /\
                       wire_u32 f 0 = MAGIC_NUMBER_IMAGES /\
                       alloc_ok e (to_size_t (image_size f)) = true /\
                       16 + to_size_t (image_size f) <= f_size f));
    try assumption; intros; cbn [fst images_valid images_zero];
    (split; [intros Hv; try discriminate
            | intros (f' & Hf' & Hm' & Ha' & Hn'); try congruence;
              try (assert (f' = f) by congruence; subst f';
                   pose proof (to_size_t_range (image_size f)) as Hr;
                   first [congruence | lia | reflexivity])]).
  exists f. repeat split; try assumption; lia.
Qed.

Lemma images_accepted_iff_witness :
  0 < brk start /\
  (images_valid
     (fst (mnist_load_images (host (2 ^ 32) two_files) (Some "images"%string) start))
   = 1 <->
   exists f,
     files (host (2 ^ 32) two_files) "images"%string = Some f /\
     wire_u32 f 0 = MAGIC_NUMBER_IMAGES /\
     alloc_ok (host (2 ^ 32) two_files) (to_size_t (image_size f)) = true /\
     16 + to_size_t (image_size f) <= f_size f).
Proof.
  assert (H : 0 < brk start) by (cbn; lia).
  split; [exact H|].
  exact (images_accepted_iff (host (2 ^ 32) two_files) start "images"%string H).
Defined.

(** ** What a loaded set holds *)




Lemma image_size_congruent f :
  to_size_t (image_size f) mod 2 ^ 32
  = (wire_u32 f 4 * wire_u32 f 8 * wire_u32 f 12) mod 2 ^ 32.
Proof.
  unfold image_size, u32_mul, to_u32.
  rewrite Z.mul_mod_idemp_l by lia.
  set (p := wire_u32 f 4 * wire_u32 f 8 * wire_u32 f 12).
  unfold to_int. rewrite Z.mod_mod by lia.
  pose proof (Z.mod_pos_bound p (2 ^ 32) ltac:(lia)) as Hu.
  set (u := p mod 2 ^ 32) in *.
  change (2 ^ 32) with 4294967296 in *. change (2 ^ 31) with 2147483648.
  unfold to_size_t. change (2 ^ 64) with 18446744073709551616.
  destruct (Z.ltb_spec u 2147483648).
  - rewrite (Z.mod_small u 18446744073709551616) by lia.
    apply Z.mod_small. lia.
  - replace ((u - 4294967296) mod 18446744073709551616)
      with (u - 4294967296 + 18446744073709551616)
      by (apply Z.mod_unique with (q := -1); lia).
    symmetry. apply Z.mod_unique with (q := 4294967295); lia.
Qed.

(** X4. An image set that [mnist_load_images] marks valid holds the file:
    count, rows and columns are the header fields converted to [int], the
    buffer is a non-null, live block whose bytes are the bytes of the file
    from offset 16 on, and the stream is closed again.  The size of the
    buffer is the size the code computed, which agrees with the product of
    the three header fields modulo 2^32. *)
Theorem valid_images_hold_the_file (e : env) (s : state) (path : string) :
  state_ok s ->
  let r := mnist_load_images e (Some path) s in
  images_valid (fst r) = 1 ->
  exists f n,
    files e path = Some f /\
    images_count (fst r) = to_int (wire_u32 f 4) /\
    images_rows (fst r) = to_int (wire_u32 f 8) /\
    images_columns (fst r) = to_int (wire_u32 f 12) /\
    images_data (fst r) <> 0 /\
    live (snd r) = (images_data (fst r), n) :: live s /\
    n mod 2 ^ 32 = (wire_u32 f 4 * wire_u32 f 8 * wire_u32 f 12) mod 2 ^ 32 /\
    (forall j, 0 <= j < n ->
               mem (snd r) (images_data (fst r) + j) = Some (f_byte f (16 + j))) /\
    open_files (snd r) = open_files s.
Proof.
  intros Hs. pose proof (valid_images_facts e s path Hs) as H. cbv zeta.
  destruct (mnist_load_images e (Some path) s) as [images s']. cbn [fst snd].
  intros Hv.
  destruct (H Hv) as (f & Hf & _ & _ & _ & -> & Hlive & _ & Hmem & Hopen).
  exists f, (to_size_t (image_size f)).
  cbn [images_count images_rows images_columns images_data].
  destruct Hs as (Hbrk & _).
  repeat split; try assumption.
  - lia.
  - apply image_size_congruent.
Qed.

Lemma valid_images_hold_the_file_witness :
  let e := host (2 ^ 32) two_files in
  let r := mnist_load_images e (Some "images"%string) start in
  state_ok start /\
  images_valid (fst r) = 1 /\
  exists f n,
    files e "images"%string = Some f /\
    images_count (fst r) = to_int (wire_u32 f 4) /\
    images_rows (fst r) = to_int (wire_u32 f 8) /\
    images_columns (fst r) = to_int (wire_u32 f 12) /\
    images_data (fst r) <> 0 /\
    live (snd r) = (images_data (fst r), n) :: live start /\
    n mod 2 ^ 32 = (wire_u32 f 4 * wire_u32 f 8 * wire_u32 f 12) mod 2 ^ 32 /\
    (forall j, 0 <= j < n ->
               mem (snd r) (images_data (fst r) + j) = Some (f_byte f (16 + j))) /\
    open_files (snd r) = open_files start.
Proof.
  intros e r.
  assert (Hv : images_valid (fst r) = 1) by reflexivity.
  split; [exact start_ok|]. split; [exact Hv|].
  exact (valid_images_hold_the_file e start "images"%string start_ok Hv).
Defined.

(** X5. A label file with the right magic number that declares at most
    [INT_MAX] labels and holds them all is loaded whenever the allocator
    grants the buffer: the result is valid, its count is the declared
    number, its buffer is a live block of exactly [count] bytes, label [i]
    is byte [8 + i] of the file, and the stream is closed again. *)
Theorem well_formed_label_file_is_loaded
    (e : env) (s : state) (path : string) (f : file) :
  state_ok s ->
  files e path = Some f ->
  wire_u32 f 0 = MAGIC_NUMBER_LABELS ->
  wire_u32 f 4 <= INT_MAX ->
  8 + wire_u32 f 4 <= f_size f ->
  alloc_ok e (wire_u32 f 4) = true ->
  let (labels, s') := mnist_load_labels e (Some path) s in
  labels_valid labels = 1 /\
  labels_count labels = wire_u32 f 4 /\
  live s' = (labels_data labels, labels_count labels) :: live s /\
  (forall i, 0 <= i < labels_count labels ->
             mnist_get_label (mem s') labels i = Some (f_byte f (8 + i))) /\
  open_files s' = open_files s.
Proof.
  intros Hs Hf Hm Hmax Hsz Ha.
  pose proof (labels_file_loaded e s path f Hs Hf Hm Hmax Hsz Ha) as H.
  destruct (mnist_load_labels e (Some path) s) as [labels s'].
  cbv zeta in H. destruct H as (Hv & Hc & _ & Hlive & Hget & Hopen).
  repeat split; try assumption.
  intros i Hi. apply Hget. lia.
Qed.

Lemma well_formed_label_file_is_loaded_witness :
  let e := host (2 ^ 32) two_files in
  state_ok start /\
  files e "labels"%string = Some two_labels /\
  wire_u32 two_labels 0 = MAGIC_NUMBER_LABELS /\
  wire_u32 two_labels 4 <= INT_MAX /\
  8 + wire_u32 two_labels 4 <= f_size two_labels /\
  alloc_ok e (wire_u32 two_labels 4) = true /\
  let (labels, s') := mnist_load_labels e (Some "labels"%string) start in
  labels_valid labels = 1 /\
  labels_count labels = wire_u32 two_labels 4 /\
  live s' = (labels_data labels, labels_count labels) :: live start /\
  (forall i, 0 <= i < labels_count labels ->
             mnist_get_label (mem s') labels i = Some (f_byte two_labels (8 + i))) /\
  open_files s' = open_files start.
Proof.
  intros e.
  assert (H1 : files e "labels"%string = Some two_labels) by reflexivity.
  assert (H2 : wire_u32 two_labels 0 = MAGIC_NUMBER_LABELS) by reflexivity.
  assert (H3 : wire_u32 two_labels 4 <= INT_MAX) by (vm_compute; discriminate).
  assert (H4 : 8 + wire_u32 two_labels 4 <= f_size two_labels)
    by (vm_compute; discriminate).
  assert (H5 : alloc_ok e (wire_u32 two_labels 4) = true) by reflexivity.
  split; [exact start_ok|]. split; [exact H1|]. split; [exact H2|].
  split; [exact H3|]. split; [exact H4|]. split; [exact H5|].
  exact (well_formed_label_file_is_loaded e start "labels"%string two_labels
           start_ok H1 H2 H3 H4 H5).
Defined.

(** X6. An image file with the right magic number whose three header
    fields and their product are at most [INT_MAX], and which holds all
    the pixels it declares, is loaded whenever the allocator grants the
    buffer: count, rows and columns are the header fields, the buffer is a
    live block of exactly [count * rows * columns] bytes that holds the
    pixels in file order, and the stream is closed again. *)
Theorem well_formed_image_file_is_loaded
    (e : env) (s : state) (path : string) (f : file) :
  state_ok s ->
  files e path = Some f ->
  wire_u32 f 0 = MAGIC_NUMBER_IMAGES ->
  wire_u32 f 4 <= INT_MAX -> wire_u32 f 8 <= INT_MAX -> wire_u32 f 12 <= INT_MAX ->
  wire_u32 f 4 * wire_u32 f 8 * wire_u32 f 12 <= INT_MAX ->
  16 + wire_u32 f 4 * wire_u32 f 8 * wire_u32 f 12 <= f_size f ->
  alloc_ok e (wire_u32 f 4 * wire_u32 f 8 * wire_u32 f 12) = true ->
  let (images, s') := mnist_load_images e (Some path) s in
  images_valid images = 1 /\
  images_count images = wire_u32 f 4 /\
  images_rows images = wire_u32 f 8 /\
  images_columns images = wire_u32 f 12 /\
  live s' = (images_data images,
             images_count images * images_rows images * images_columns images)
            :: live s /\
  (forall j, 0 <= j < images_count images * images_rows images * images_columns images ->
             mem s' (images_data images + j) = Some (f_byte f (16 + j))) /\
  open_files s' = open_files s.
Proof.
  intros Hs Hf Hm Hn Hr Hc Hmax Hsz Ha.
  pose proof (images_file_loaded e s path f Hs Hf Hm Hn Hr Hc Hmax Hsz Ha) as H.
  destruct (mnist_load_images e (Some path) s) as [images s'].
  cbv zeta in H. destruct H as (Hv & En & Er & Ec & _ & Hlive & Hpix & Hopen).
  repeat split; try assumption.
  intros j Hj. apply Hpix. rewrite En, Er, Ec in Hj. exact Hj.
Qed.

Lemma well_formed_image_file_is_loaded_witness :
  let e := host (2 ^ 32) two_files in
  let f := two_images in
  state_ok start /\
  files e "images"%string = Some f /\
  wire_u32 f 0 = MAGIC_NUMBER_IMAGES /\
  (wire_u32 f 4 <= INT_MAX /\ wire_u32 f 8 <= INT_MAX /\ wire_u32 f 12 <= INT_MAX) /\
  wire_u32 f 4 * wire_u32 f 8 * wire_u32 f 12 <= INT_MAX /\
  16 + wire_u32 f 4 * wire_u32 f 8 * wire_u32 f 12 <= f_size f /\
  alloc_ok e (wire_u32 f 4 * wire_u32 f 8 * wire_u32 f 12) = true /\
  let (images, s') := mnist_load_images e (Some "images"%string) start in
  images_valid images = 1 /\
  images_count images = wire_u32 f 4 /\
  images_rows images = wire_u32 f 8 /\
  images_columns images = wire_u32 f 12 /\
  live s' = (images_data images,
             images_count images * images_rows images * images_columns images)
            :: live start /\
  (forall j, 0 <= j < images_count images * images_rows images * images_columns images ->
             mem s' (images_data images + j) = Some (f_byte f (16 + j))) /\
  open_files s' = open_files start.
Proof.
  intros e f.
  assert (H1 : files e "images"%string = Some f) by reflexivity.
  assert (H2 : wire_u32 f 0 = MAGIC_NUMBER_IMAGES) by reflexivity.
  assert (H3 : wire_u32 f 4 <= INT_MAX) by (vm_compute; discriminate).
  assert (H4 : wire_u32 f 8 <= INT_MAX) by (vm_compute; discriminate).
  assert (H5 : wire_u32 f 12 <= INT_MAX) by (vm_compute; discriminate).
  assert (H6 : wire_u32 f 4 * wire_u32 f 8 * wire_u32 f 12 <= INT_MAX)
    by (vm_compute; discriminate).
  assert (H7 : 16 + wire_u32 f 4 * wire_u32 f 8 * wire_u32 f 12 <= f_size f)
    by (vm_compute; discriminate).
  assert (H8 : alloc_ok e (wire_u32 f 4 * wire_u32 f 8 * wire_u32 f 12) = true)
    by reflexivity.
  split; [exact start_ok|]. split; [exact H1|]. split; [exact H2|].
  split; [exact (conj H3 (conj H4 H5))|]. split; [exact H6|].
  split; [exact H7|]. split; [exact H8|].
  exact (well_formed_image_file_is_loaded e start "images"%string f
           start_ok H1 H2 H3 H4 H5 H6 H7 H8).
Defined.

(** X7. Loading an image file and then taking image [index] gives that
    image of the file, in place: for a file with the right magic number
    whose header fields and their product are at most [INT_MAX], which
    holds all its pixels and whose buffer is granted, byte [j] of the view
    that [mnist_get_image] returns for [index] is byte
    [16 + rows * columns * index + j] of the file. *)
Theorem loaded_image_is_the_image_of_the_file
    (e : env) (s : state) (path : string) (f : file) :
  state_ok s ->
  files e path = Some f ->
  wire_u32 f 0 = MAGIC_NUMBER_IMAGES ->
  wire_u32 f 4 <= INT_MAX -> wire_u32 f 8 <= INT_MAX -> wire_u32 f 12 <= INT_MAX ->
  wire_u32 f 4 * wire_u32 f 8 * wire_u32 f 12 <= INT_MAX ->
  16 + wire_u32 f 4 * wire_u32 f 8 * wire_u32 f 12 <= f_size f ->
  alloc_ok e (wire_u32 f 4 * wire_u32 f 8 * wire_u32 f 12) = true ->
  let (images, s') := mnist_load_images e (Some path) s in
  forall index j,
    0 <= index < wire_u32 f 4 ->
    0 <= j < wire_u32 f 8 * wire_u32 f 12 ->
    mem s' (image_data (mnist_get_image images index) + j)
    = Some (f_byte f (16 + (wire_u32 f 8 * wire_u32 f 12 * index + j))).
Proof.
  intros Hs Hf Hm Hn Hr Hc Hmax Hsz Ha.
  exact (loaded_image_view e s path f Hs Hf Hm Hn Hr Hc Hmax Hsz Ha).
Qed.

Lemma loaded_image_is_the_image_of_the_file_witness :
  let e := host (2 ^ 32) two_files in
  let f := two_images in
  state_ok start /\
  files e "images"%string = Some f /\
  wire_u32 f 0 = MAGIC_NUMBER_IMAGES /\
  (wire_u32 f 4 <= INT_MAX /\ wire_u32 f 8 <= INT_MAX /\ wire_u32 f 12 <= INT_MAX) /\
  wire_u32 f 4 * wire_u32 f 8 * wire_u32 f 12 <= INT_MAX /\
  16 + wire_u32 f 4 * wire_u32 f 8 * wire_u32 f 12 <= f_size f /\
  alloc_ok e (wire_u32 f 4 * wire_u32 f 8 * wire_u32 f 12) = true /\
  let (images, s') := mnist_load_images e (Some "images"%string) start in
  forall index j,
    0 <= index < wire_u32 f 4 ->
    0 <= j < wire_u32 f 8 * wire_u32 f 12 ->
    mem s' (image_data (mnist_get_image images index) + j)
    = Some (f_byte f (16 + (wire_u32 f 8 * wire_u32 f 12 * index + j))).
Proof.
  intros e f.
  assert (H1 : files e "images"%string = Some f) by reflexivity.
  assert (H2 : wire_u32 f 0 = MAGIC_NUMBER_IMAGES) by reflexivity.
  assert (H3 : wire_u32 f 4 <= INT_MAX) by (vm_compute; discriminate).
  assert (H4 : wire_u32 f 8 <= INT_MAX) by (vm_compute; discriminate).
  assert (H5 : wire_u32 f 12 <= INT_MAX) by (vm_compute; discriminate).
  assert (H6 : wire_u32 f 4 * wire_u32 f 8 * wire_u32 f 12 <= INT_MAX)
    by (vm_compute; discriminate).
  assert (H7 : 16 + wire_u32 f 4 * wire_u32 f 8 * wire_u32 f 12 <= f_size f)
    by (vm_compute; discriminate).
  assert (H8 : alloc_ok e (wire_u32 f 4 * wire_u32 f 8 * wire_u32 f 12) = true)
    by reflexivity.
  split; [exact start_ok|]. split; [exact H1|]. split; [exact H2|].
  split; [exact (conj H3 (conj H4 H5))|]. split; [exact H6|].
  split; [exact H7|]. split; [exact H8|].
  exact (loaded_image_is_the_image_of_the_file e start "images"%string f
           start_ok H1 H2 H3 H4 H5 H6 H7 H8).
Defined.

(** ** Failures *)

(** X8. A file with a good header and fewer payload bytes than it declares
    is rejected and the buffer allocated for it is released: the result is
    the all-zero structure and the live blocks are those of before.  This
    holds for label files, and for image files whose declared size
    [images * rows * columns] is at most [INT_MAX]. *)
Theorem truncated_payload_is_rejected
    (e : env) (s : state) (path : string) (f : file) :
  state_ok s ->
  files e path = Some f ->
  (8 <= f_size f ->
   wire_u32 f 0 = MAGIC_NUMBER_LABELS ->
   f_size f - 8 < wire_u32 f 4 ->
   let (labels, s') := mnist_load_labels e (Some path) s in
   labels = labels_zero /\ live s' = live s) /\
  (16 <= f_size f ->
   wire_u32 f 0 = MAGIC_NUMBER_IMAGES ->
   wire_u32 f 4 * wire_u32 f 8 * wire_u32 f 12 <= INT_MAX ->
   f_size f - 16 < wire_u32 f 4 * wire_u32 f 8 * wire_u32 f 12 ->
   let (images, s') := mnist_load_images e (Some path) s in
   images = images_zero /\ live s' = live s).
Proof.
  intros Hs Hf. split.
  - intros Hsz Hm Hcut. now apply labels_truncated_rejected with (f := f).
  - intros Hsz Hm Hmax Hcut.
    exact (images_truncated_rejected e s path f Hs Hf Hsz Hm Hmax Hcut).
Qed.

Lemma truncated_payload_is_rejected_witness :
  let e1 := host (2 ^ 32) (disk "labels" cut_labels) in
  let e2 := host (2 ^ 32) (disk "images" cut_images) in
  state_ok start /\
  (files e1 "labels"%string = Some cut_labels /\
   8 <= f_size cut_labels /\
   wire_u32 cut_labels 0 = MAGIC_NUMBER_LABELS /\
   f_size cut_labels - 8 < wire_u32 cut_labels 4 /\
   let (labels, s') := mnist_load_labels e1 (Some "labels"%string) start in
   labels = labels_zero /\ live s' = live start) /\
  (files e2 "images"%string = Some cut_images /\
   16 <= f_size cut_images /\
   wire_u32 cut_images 0 = MAGIC_NUMBER_IMAGES /\
   wire_u32 cut_images 4 * wire_u32 cut_images 8 * wire_u32 cut_images 12 <= INT_MAX /\
   f_size cut_images - 16
   < wire_u32 cut_images 4 * wire_u32 cut_images 8 * wire_u32 cut_images 12 /\
   let (images, s') := mnist_load_images e2 (Some "images"%string) start in
   images = images_zero /\ live s' = live start).
Proof.
  intros e1 e2.
  assert (F1 : files e1 "labels"%string = Some cut_labels) by reflexivity.
  assert (F2 : files e2 "images"%string = Some cut_images) by reflexivity.
  assert (A1 : 8 <= f_size cut_labels) by (vm_compute; discriminate).
  assert (A2 : wire_u32 cut_labels 0 = MAGIC_NUMBER_LABELS) by reflexivity.
  assert (A3 : f_size cut_labels - 8 < wire_u32 cut_labels 4) by reflexivity.
  assert (B1 : 16 <= f_size cut_images) by (vm_compute; discriminate).
  assert (B2 : wire_u32 cut_images 0 = MAGIC_NUMBER_IMAGES) by reflexivity.
  assert (B3 : wire_u32 cut_images 4 * wire_u32 cut_images 8
               * wire_u32 cut_images 12 <= INT_MAX) by (vm_compute; discriminate).
  assert (B4 : f_size cut_images - 16
               < wire_u32 cut_images 4 * wire_u32 cut_images 8
                 * wire_u32 cut_images 12) by reflexivity.
  split; [exact start_ok|]. split.
  - split; [exact F1|]. split; [exact A1|]. split; [exact A2|]. split; [exact A3|].
    exact (proj1 (truncated_payload_is_rejected e1 start "labels"%string cut_labels
                    start_ok F1) A1 A2 A3).
  - split; [exact F2|]. split; [exact B1|]. split; [exact B2|]. split; [exact B3|].
    split; [exact B4|].
    exact (proj2 (truncated_payload_is_rejected e2 start "images"%string cut_images
                    start_ok F2) B1 B2 B3 B4).
Defined.

(** X9. A file that cannot be opened, or that ends before its header
    does (8 bytes for labels, 16 for images; the empty file included), is
    rejected with the all-zero structure.  For a missing file the only
    library call is the failed [fopen]; for a short header the stream is
    closed again, the heap is untouched, and nothing is allocated and no
    payload is read. *)
Theorem unreadable_file_is_rejected
    (e : env) (s : state) (path : string) (f : file) :
  (files e path = None ->
   mnist_load_labels e (Some path) s = (labels_zero, log (EvOpen path false) s) /\
   mnist_load_images e (Some path) s = (images_zero, log (EvOpen path false) s)) /\
  (files e path = Some f -> f_size f < 8 ->
   let (labels, s') := mnist_load_labels e (Some path) s in
   labels = labels_zero /\ header_only s s') /\
  (files e path = Some f -> f_size f < 16 ->
   let (images, s') := mnist_load_images e (Some path) s in
   images = images_zero /\ header_only s s').
Proof.
  split; [|split].
  - intros Hf. split.
    + now apply mnist_load_labels_open_fails.
    + now apply mnist_load_images_open_fails.
  - intros Hf Hsz. now apply mnist_load_labels_short_header with (f := f).
  - intros Hf Hsz. now apply mnist_load_images_short_header with (f := f).
Qed.

Lemma unreadable_file_is_rejected_witness :
  let e := host (2 ^ 32) (disk "labels" cut_header) in
  (files e "nowhere"%string = None /\
   mnist_load_labels e (Some "nowhere"%string) start
   = (labels_zero, log (EvOpen "nowhere" false) start)) /\
  (files e "labels"%string = Some cut_header /\
   f_size cut_header < 8 /\
   let (labels, s') := mnist_load_labels e (Some "labels"%string) start in
   labels = labels_zero /\ header_only start s') /\
  (f_size cut_header < 16 /\
   let (images, s') := mnist_load_images e (Some "labels"%string) start in
   images = images_zero /\ header_only start s').
Proof.
  intros e.
  assert (F0 : files e "nowhere"%string = None) by reflexivity.
  assert (F1 : files e "labels"%string = Some cut_header) by reflexivity.
  assert (A1 : f_size cut_header < 8) by reflexivity.
  assert (A2 : f_size cut_header < 16) by reflexivity.
  split; [|split].
  - split; [exact F0|].
    exact (proj1 (proj1 (unreadable_file_is_rejected e start "nowhere"%string
                           cut_header) F0)).
  - split; [exact F1|]. split; [exact A1|].
    exact (proj1 (proj2 (unreadable_file_is_rejected e start "labels"%string
                           cut_header)) F1 A1).
  - split; [exact A2|].
    exact (proj2 (proj2 (unreadable_file_is_rejected e start "labels"%string
                           cut_header)) F1 A2).
Defined.

(** X10. When the allocator refuses the buffer of a file with a good
    header, the loaders return the all-zero structure and leave the heap
    as it was, and the stream they opened stays open. *)
Theorem refused_allocation_is_reported
    (e : env) (s : state) (path : string) (f : file) :
  0 < brk s ->
  files e path = Some f ->
  (8 <= f_size f ->
   wire_u32 f 0 = MAGIC_NUMBER_LABELS ->
   alloc_ok e (wire_u32 f 4) = false ->
   let (labels, s') := mnist_load_labels e (Some path) s in
   labels = labels_zero /\
   mem s' = mem s /\ brk s' = brk s /\ live s' = live s /\
   open_files s' = next_fd s :: open_files s) /\
  (16 <= f_size f ->
   wire_u32 f 0 = MAGIC_NUMBER_IMAGES ->
   alloc_ok e (to_size_t (image_size f)) = false ->
   let (images, s') := mnist_load_images e (Some path) s in
   images = images_zero /\
   mem s' = mem s /\ brk s' = brk s /\ live s' = live s /\
   open_files s' = next_fd s :: open_files s).
Proof.
  intros Hbrk Hf. split.
  - intros Hsz Hm Ha.
    rewrite (mnist_load_labels_header e s path f) by assumption.
    rewrite labels_payload_run by (assumption || apply wire_u32_range).
    cbn [lh_number_of_items]. rewrite Ha. repeat split.
  - intros Hsz Hm Ha.
    rewrite (mnist_load_images_header e s path f) by assumption.
    rewrite images_payload_run by assumption.
    cbn [ih_number_of_images ih_number_of_rows ih_number_of_columns].
    fold (image_size f). rewrite Ha. repeat split.
Qed.

Lemma refused_allocation_is_reported_witness :
  let e1 := host (2 ^ 30) (disk "labels" greedy_labels) in
  let e2 := host (2 ^ 47) (disk "images" greedy_images) in
  0 < brk start /\
  (files e1 "labels"%string = Some greedy_labels /\
   8 <= f_size greedy_labels /\
   wire_u32 greedy_labels 0 = MAGIC_NUMBER_LABELS /\
   alloc_ok e1 (wire_u32 greedy_labels 4) = false /\
   let (labels, s') := mnist_load_labels e1 (Some "labels"%string) start in
   labels = labels_zero /\
   mem s' = mem start /\ brk s' = brk start /\ live s' = live start /\
   open_files s' = next_fd start :: open_files start) /\
  (files e2 "images"%string = Some greedy_images /\
   16 <= f_size greedy_images /\
   wire_u32 greedy_images 0 = MAGIC_NUMBER_IMAGES /\
   alloc_ok e2 (to_size_t (image_size greedy_images)) = false /\
   let (images, s') := mnist_load_images e2 (Some "images"%string) start in
   images = images_zero /\
   mem s' = mem start /\ brk s' = brk start /\ live s' = live start /\
   open_files s' = next_fd start :: open_files start).
Proof.
  intros e1 e2.
  assert (H0 : 0 < brk start) by reflexivity.
  assert (F1 : files e1 "labels"%string = Some greedy_labels) by reflexivity.
  assert (F2 : files e2 "images"%string = Some greedy_images) by reflexivity.
  assert (A1 : 8 <= f_size greedy_labels) by (vm_compute; discriminate).
  assert (A2 : wire_u32 greedy_labels 0 = MAGIC_NUMBER_LABELS) by reflexivity.
  assert (A3 : alloc_ok e1 (wire_u32 greedy_labels 4) = false) by reflexivity.
  assert (B1 : 16 <= f_size greedy_images) by (vm_compute; discriminate).
  assert (B2 : wire_u32 greedy_images 0 = MAGIC_NUMBER_IMAGES) by reflexivity.
  assert (B3 : alloc_ok e2 (to_size_t (image_size greedy_images)) = false)
    by reflexivity.
  split; [exact H0|]. split.
  - split; [exact F1|]. split; [exact A1|]. split; [exact A2|]. split; [exact A3|].
    exact (proj1 (refused_allocation_is_reported e1 start "labels"%string
                    greedy_labels H0 F1) A1 A2 A3).
  - split; [exact F2|]. split; [exact B1|]. split; [exact B2|]. split; [exact B3|].
    exact (proj2 (refused_allocation_is_reported e2 start "images"%string
                    greedy_images H0 F2) B1 B2 B3).
Defined.

(** ** What holds on every path *)

(** X11. All or nothing: whatever the path and the file, a loader either
    returns the all-zero structure and leaves the live blocks as they were
    (no buffer is leaked), or returns a structure marked valid whose data
    pointer is not null and is the one block added to the live blocks. *)
Theorem load_is_all_or_nothing (e : env) (s : state) (filepath : option string) :
  state_ok s ->
  (let (labels, s') := mnist_load_labels e filepath s in
   (labels = labels_zero /\ live s' = live s) \/
   (labels_valid labels = 1 /\ labels_data labels <> 0 /\
    exists n, live s' = (labels_data labels, n) :: live s)) /\
  (let (images, s') := mnist_load_images e filepath s in
   (images = images_zero /\ live s' = live s) \/
   (images_valid images = 1 /\ images_data images <> 0 /\
    exists n, live s' = (images_data images, n) :: live s)).
Proof.
  intros Hs. pose proof Hs as (Hbrk & _). split.
  - pose proof (labels_all_or_nothing e s filepath Hs) as H.
    destruct (mnist_load_labels e filepath s) as [labels s'].
    destruct H as [H|(Hv & Hd & Hl)]; [left; exact H|right].
    repeat split; try assumption. lia.
  - pose proof (images_all_or_nothing e s filepath Hs) as H.
    destruct (mnist_load_images e filepath s) as [images s'].
    destruct H as [H|(Hv & Hd & Hl)]; [left; exact H|right].
    repeat split; try assumption. lia.
Qed.

Lemma load_is_all_or_nothing_witness :
  let e := host (2 ^ 32) two_files in
  state_ok start /\
  (let (labels, s') := mnist_load_labels e (Some "images"%string) start in
   (labels = labels_zero /\ live s' = live start) \/
   (labels_valid labels = 1 /\ labels_data labels <> 0 /\
    exists n, live s' = (labels_data labels, n) :: live start)) /\
  (let (images, s') := mnist_load_images e (Some "images"%string) start in
   (images = images_zero /\ live s' = live start) \/
   (images_valid images = 1 /\ images_data images <> 0 /\
    exists n, live s' = (images_data images, n) :: live start)).
Proof.
  intros e. split; [exact start_ok|].
  exact (load_is_all_or_nothing e start (Some "images"%string) start_ok).
Defined.

(** X12. A loader writes only into the block it allocates: the allocator's
    frontier never moves back, and every address below the old frontier
    or from the new frontier on holds after the call what it held before.
    Buffers loaded earlier are never modified. *)
Theorem load_writes_only_fresh_memory
    (e : env) (s : state) (filepath : option string) :
  0 < brk s ->
  (let (labels, s') := mnist_load_labels e filepath s in
   brk s <= brk s' /\
   forall a, a < brk s \/ brk s' <= a -> mem s' a = mem s a) /\
  (let (images, s') := mnist_load_images e filepath s in
   brk s <= brk s' /\
   forall a, a < brk s \/ brk s' <= a -> mem s' a = mem s a).
Proof.
  intros Hbrk. split.
  - now apply labels_frame.
  - now apply images_frame.
Qed.

Lemma load_writes_only_fresh_memory_witness :
  let e := host (2 ^ 32) two_files in
  0 < brk start /\
  (let (labels, s') := mnist_load_labels e (Some "labels"%string) start in
   brk start <= brk s' /\
   forall a, a < brk start \/ brk s' <= a -> mem s' a = mem start a) /\
  (let (images, s') := mnist_load_images e (Some "labels"%string) start in
   brk start <= brk s' /\
   forall a, a < brk start \/ brk s' <= a -> mem s' a = mem start a).
Proof.
  intros e.
  assert (H0 : 0 < brk start) by reflexivity.
  split; [exact H0|].
  exact (load_writes_only_fresh_memory e start (Some "labels"%string) H0).
Defined.

(** X13. Every path of a loader but one closes the stream it opened: after
    the call the open streams are those of before, unless [malloc]
    returned the null pointer, in which case the result is all-zero and
    the stream the loader opened is still open. *)
Theorem stream_is_closed_unless_malloc_fails
    (e : env) (s : state) (filepath : option string) :
  state_ok s ->
  (let (labels, s') := mnist_load_labels e filepath s in
   open_files s' = open_files s \/
   (labels = labels_zero /\
    (exists n, alloc_ok e n = false /\ In (EvMalloc n 0) (trace s')) /\
    open_files s' = next_fd s :: open_files s)) /\
  (let (images, s') := mnist_load_images e filepath s in
   open_files s' = open_files s \/
   (images = images_zero /\
    (exists n, alloc_ok e n = false /\ In (EvMalloc n 0) (trace s')) /\
    open_files s' = next_fd s :: open_files s)).
Proof.
  intros (Hbrk & Hlive & Hopen).
  destruct filepath as [path|]; [|split; left; reflexivity].
  split.
  - apply (mnist_load_labels_cases e s path
             (fun r => let (labels, s') := r in
                       open_files s' = open_files s \/
                       (labels = labels_zero /\
                        (exists n, alloc_ok e n = false /\
                                   In (EvMalloc n 0) (trace s')) /\
                        open_files s' = next_fd s :: open_files s)));
      try assumption; intros;
      cbn [snd fclose free log after_header after_payload open_files trace
           fd stream_at];
      try (left; first [reflexivity | now apply closed_again_restores]).
    right. split; [reflexivity|]. split; [|reflexivity].
    eexists. split; [eassumption|]. apply in_or_app. right. left. reflexivity.
  - apply (mnist_load_images_cases e s path
             (fun r => let (images, s') := r in
                       open_files s' = open_files s \/
                       (images = images_zero /\
                        (exists n, alloc_ok e n = false /\
                                   In (EvMalloc n 0) (trace s')) /\
                        open_files s' = next_fd s :: open_files s)));
      try assumption; intros;
      cbn [snd fclose free log after_header after_payload open_files trace
           fd stream_at];
      try (left; first [reflexivity | now apply closed_again_restores]).
    right. split; [reflexivity|]. split; [|reflexivity].
    eexists. split; [eassumption|]. apply in_or_app. right. left. reflexivity.
Qed.

Lemma stream_is_closed_unless_malloc_fails_witness :
  let e := host (2 ^ 32) two_files in
  state_ok start /\
  (let (labels, s') := mnist_load_labels e (Some "labels"%string) start in
   open_files s' = open_files start \/
   (labels = labels_zero /\
    (exists n, alloc_ok e n = false /\ In (EvMalloc n 0) (trace s')) /\
    open_files s' = next_fd start :: open_files start)) /\
  (let (images, s') := mnist_load_images e (Some "labels"%string) start in
   open_files s' = open_files start \/
   (images = images_zero /\
    (exists n, alloc_ok e n = false /\ In (EvMalloc n 0) (trace s')) /\
    open_files s' = next_fd start :: open_files start)).
Proof.
  intros e. split; [exact start_ok|].
  exact (stream_is_closed_unless_malloc_fails e start (Some "labels"%string) start_ok).
Defined.

(** ** How the operations compose *)



(** X15. The loaders behave the same on a big-endian and on a
    little-endian host: result and final state do not depend on the byte
    order of the host. *)
Theorem load_does_not_depend_on_host_byte_order
    (e : env) (host_big : bool) (s : state) (filepath : option string) :
  mnist_load_labels (with_host host_big e) filepath s = mnist_load_labels e filepath s /\
  mnist_load_images (with_host host_big e) filepath s = mnist_load_images e filepath s.
Proof.
  destruct filepath as [path|]; [|split; reflexivity].
  destruct (files e path) as [f|] eqn:Hf.
  2:{ split.
      - rewrite !mnist_load_labels_open_fails by exact Hf. reflexivity.
      - rewrite !mnist_load_images_open_fails by exact Hf. reflexivity. }
  assert (Hf' : files (with_host host_big e) path = Some f) by exact Hf.
  split.
  - destruct (Z.lt_ge_cases (f_size f) 8).
    + rewrite (mnist_load_labels_short (with_host host_big e) s path f),
        (mnist_load_labels_short e s path f) by assumption.
      reflexivity.
    + rewrite (mnist_load_labels_header (with_host host_big e) s path f),
        (mnist_load_labels_header e s path f) by assumption.
      reflexivity.
  - destruct (Z.lt_ge_cases (f_size f) 16).
    + rewrite (mnist_load_images_short (with_host host_big e) s path f),
        (mnist_load_images_short e s path f) by assumption.
      reflexivity.
    + rewrite (mnist_load_images_header (with_host host_big e) s path f),
        (mnist_load_images_header e s path f) by assumption.
      reflexivity.
Qed.



(** ** Printing *)

Lemma string_length_append (a b : string) :
  String.length (a ++ b) = (String.length a + String.length b)%nat.
Proof. induction a as [|x a IH]; cbn; [reflexivity|]. now rewrite IH. Qed.

Lemma glyph_length threshold v : String.length (glyph threshold v) = 2%nat.
Proof. unfold glyph. destruct (_ <=? _); reflexivity. Qed.

Lemma row_length threshold (g : nat -> byte) (l : list nat) :
  String.length (flatten (map (fun c => glyph threshold (g c)) l))
  = (2 * List.length l)%nat.
Proof.
  induction l as [|c l IH]; [reflexivity|].
  cbn [map flatten fold_right List.length]. fold (flatten (map (fun c => glyph threshold (g c)) l)).
  rewrite string_length_append, glyph_length, IH. lia.
Qed.

Lemma render_length threshold rows cols pixel :
  String.length (render threshold rows cols pixel)
  = (rows * (2 * cols + 1) + 1)%nat.
Proof.
  unfold render. rewrite string_length_append.
  change (String.length newline) with 1%nat. f_equal.
  generalize 0%nat at 2. induction rows as [|rows IH]; intros r0; [reflexivity|].
  cbn [seq map flatten fold_right].
  fold (flatten (map (fun r => (flatten (map (fun c => glyph threshold (pixel r c))
                                           (seq 0 cols)) ++ newline)%string)
                   (seq (S r0) rows))).
  rewrite !string_length_append, row_length, length_seq, IH.
  change (String.length newline) with 1%nat. lia.
Qed.

(** X17. For a view whose pixels are mapped, [mnist_print_image] prints two
    characters per pixel, a line break after each row and one more line
    break at the end: [rows * (2 * columns + 1) + 1] characters. *)
Theorem printed_text_has_two_characters_per_pixel
    (m : memory) (image : mnist_image) (threshold : byte)
    (pixel : nat -> nat -> byte) :
  view_holds m image pixel ->
  exists text,
    mnist_print_image m image threshold = Some text /\
    String.length text
    = (Z.to_nat (image_rows image) * (2 * Z.to_nat (image_columns image) + 1) + 1)%nat.
Proof.
  intros H. eexists. split.
  - apply (mnist_print_image_render m image threshold pixel H).
  - apply render_length.
Qed.

Lemma view_of_crowded_image :
  view_holds crowded_memory (mnist_get_image crowded_images 1)
    (fun r c : nat => byte_of_Z (5 + 2 * Z.of_nat r + Z.of_nat c)).
Proof.
  unfold view_holds.
  cbn [image_rows image_columns mnist_get_image crowded_images
       images_rows images_columns].
  unfold INT_MAX. split; [lia|].
  intros [|[|r]] [|[|c]] Hr Hc; try lia; reflexivity.
Qed.

Lemma printed_text_has_two_characters_per_pixel_witness :
  let image := mnist_get_image crowded_images 1 in
  let pixel := fun r c : nat => byte_of_Z (5 + 2 * Z.of_nat r + Z.of_nat c) in
  view_holds crowded_memory image pixel /\
  exists text,
    mnist_print_image crowded_memory image (byte_of_Z 6) = Some text /\
    String.length text
    = (Z.to_nat (image_rows image) * (2 * Z.to_nat (image_columns image) + 1) + 1)%nat.
Proof.
  intros image pixel. split; [exact view_of_crowded_image|].
  exact (printed_text_has_two_characters_per_pixel crowded_memory image
           (byte_of_Z 6) pixel view_of_crowded_image).
Defined.

Lemma print_rows_without_columns m image threshold :
  Z.to_nat (image_columns image) = 0%nat ->
  forall n row,
    print_rows m image threshold n row = Some (flatten (repeat newline n)).
Proof.
  intros Hc. induction n as [|n IH]; intros row; [reflexivity|].
  cbn [print_rows]. rewrite Hc. cbn [print_columns]. rewrite IH. reflexivity.
Qed.

(** X18. A view without pixels is printed without reading memory, so for
    any memory, mapped or not: with no rows the output is a single line
    break, and with no columns it is one line break per row and one more
    at the end. *)
Theorem view_without_pixels_reads_no_memory
    (m : memory) (image : mnist_image) (threshold : byte) :
  (image_rows image <= 0 ->
   mnist_print_image m image threshold = Some newline) /\
  (image_columns image <= 0 ->
   mnist_print_image m image threshold
   = Some (flatten (repeat newline (Z.to_nat (image_rows image))) ++ newline)%string).
Proof.
  split.
  - intros Hr. unfold mnist_print_image.
    replace (Z.to_nat (image_rows image)) with 0%nat by lia. reflexivity.
  - intros Hc. unfold mnist_print_image.
    rewrite print_rows_without_columns by lia. reflexivity.
Qed.

Lemma view_without_pixels_reads_no_memory_witness :
  let nowhere : memory := fun _ => None in
  let no_rows := {| image_rows := 0; image_columns := 28; image_data := 0x1000 |} in
  let no_columns := {| image_rows := 3; image_columns := 0; image_data := 0x1000 |} in
  (image_rows no_rows <= 0 /\
   mnist_print_image nowhere no_rows x7f = Some newline) /\
  (image_columns no_columns <= 0 /\
   mnist_print_image nowhere no_columns x7f
   = Some (flatten (repeat newline (Z.to_nat (image_rows no_columns))) ++ newline)%string).
Proof.
  intros nowhere no_rows no_columns.
  assert (H1 : image_rows no_rows <= 0) by (cbn; lia).
  assert (H2 : image_columns no_columns <= 0) by (cbn; lia).
  split.
  - split; [exact H1|].
    exact (proj1 (view_without_pixels_reads_no_memory nowhere no_rows x7f) H1).
  - split; [exact H2|].
    exact (proj2 (view_without_pixels_reads_no_memory nowhere no_columns x7f) H2).
Defined.

Lemma map_constant_seq {A} (x : A) (g : nat -> A) (a n : nat) :
  (forall c, g c = x) -> map g (seq a n) = repeat x n.
Proof.
  intros Hg. revert a. induction n as [|n IH]; intros a; [reflexivity|].
  cbn [seq map repeat]. now rewrite Hg, IH.
Qed.

(** X19. With threshold 0 every pixel is inked, whatever its value: the
    comparison [v >= threshold] of two unsigned characters cannot fail. *)
Theorem threshold_zero_inks_every_pixel
    (m : memory) (image : mnist_image) (pixel : nat -> nat -> byte) :
  view_holds m image pixel ->
  mnist_print_image m image x00
  = Some (all_ink (Z.to_nat (image_rows image)) (Z.to_nat (image_columns image))).
Proof.
  intros H. rewrite (mnist_print_image_render m image x00 pixel H).
  f_equal. unfold render, all_ink. f_equal. f_equal.
  apply map_constant_seq. intros r. f_equal. f_equal.
  apply map_constant_seq. intros c. unfold glyph.
  pose proof (byte_val_range (pixel r c)) as Hv.
  change (byte_val x00) with 0.
  destruct (Z.leb_spec 0 (byte_val (pixel r c))); [reflexivity|lia].
Qed.

Lemma threshold_zero_inks_every_pixel_witness :
  let image := mnist_get_image crowded_images 1 in
  let pixel := fun r c : nat => byte_of_Z (5 + 2 * Z.of_nat r + Z.of_nat c) in
  view_holds crowded_memory image pixel /\
  mnist_print_image crowded_memory image x00
  = Some (all_ink (Z.to_nat (image_rows image)) (Z.to_nat (image_columns image))).
Proof.
  intros image pixel. split; [exact view_of_crowded_image|].
  exact (threshold_zero_inks_every_pixel crowded_memory image pixel
           view_of_crowded_image).
Defined.

(** X20. Loading, viewing and printing compose: for an image file with
    the right magic number whose header fields and their product are at
    most [INT_MAX], which holds all its pixels and whose buffer is
    granted, printing the view of image [index] of the loaded set prints
    the grid of that image's pixels in the file, the pixel of row [r] and
    column [c] being byte [16 + rows * columns * index + r * columns + c]
    of the file. *)
Theorem printing_a_loaded_image_renders_the_file
    (e : env) (s : state) (path : string) (f : file) (threshold : byte) :
  state_ok s ->
  files e path = Some f ->
  wire_u32 f 0 = MAGIC_NUMBER_IMAGES ->
  wire_u32 f 4 <= INT_MAX -> wire_u32 f 8 <= INT_MAX -> wire_u32 f 12 <= INT_MAX ->
  wire_u32 f 4 * wire_u32 f 8 * wire_u32 f 12 <= INT_MAX ->
  16 + wire_u32 f 4 * wire_u32 f 8 * wire_u32 f 12 <= f_size f ->
  alloc_ok e (wire_u32 f 4 * wire_u32 f 8 * wire_u32 f 12) = true ->
  let (images, s') := mnist_load_images e (Some path) s in
  forall index,
    0 <= index < wire_u32 f 4 ->
    mnist_print_image (mem s') (mnist_get_image images index) threshold
    = Some (render threshold (Z.to_nat (wire_u32 f 8)) (Z.to_nat (wire_u32 f 12))
              (fun r c =>
                 f_byte f (16 + (wire_u32 f 8 * wire_u32 f 12 * index
                                 + (Z.of_nat c + Z.of_nat r * wire_u32 f 12))))).
Proof.
  intros Hs Hf Hm Hn Hr Hc Hmax Hsz Ha.
  pose proof (images_file_loaded e s path f Hs Hf Hm Hn Hr Hc Hmax Hsz Ha) as H1.
  pose proof (loaded_image_view e s path f Hs Hf Hm Hn Hr Hc Hmax Hsz Ha) as H2.
  destruct (mnist_load_images e (Some path) s) as [images s'].
  cbv zeta in H1, H2. destruct H1 as (_ & _ & Er & Ec & _).
  pose proof (wire_u32_range f 8) as Rr. pose proof (wire_u32_range f 12) as Rc.
  unfold is_u32 in Rr, Rc.
  intros index Hi.
  rewrite <- Er at 1. rewrite <- Ec at 1.
  change (images_rows images) with (image_rows (mnist_get_image images index)) at 1.
  change (images_columns images)
    with (image_columns (mnist_get_image images index)) at 1.
  apply mnist_print_image_render.
  unfold view_holds. cbn [image_rows image_columns mnist_get_image].
  rewrite Er, Ec. split.
  - intros _ _. nia.
  - intros r c Hrow Hcol. apply H2; [exact Hi|nia].
Qed.

Lemma printing_a_loaded_image_renders_the_file_witness :
  let e := host (2 ^ 32) two_files in
  let f := two_images in
  state_ok start /\
  files e "images"%string = Some f /\
  wire_u32 f 0 = MAGIC_NUMBER_IMAGES /\
  (wire_u32 f 4 <= INT_MAX /\ wire_u32 f 8 <= INT_MAX /\ wire_u32 f 12 <= INT_MAX) /\
  wire_u32 f 4 * wire_u32 f 8 * wire_u32 f 12 <= INT_MAX /\
  16 + wire_u32 f 4 * wire_u32 f 8 * wire_u32 f 12 <= f_size f /\
  alloc_ok e (wire_u32 f 4 * wire_u32 f 8 * wire_u32 f 12) = true /\
  let (images, s') := mnist_load_images e (Some "images"%string) start in
  forall index,
    0 <= index < wire_u32 f 4 ->
    mnist_print_image (mem s') (mnist_get_image images index) x7f
    = Some (render x7f (Z.to_nat (wire_u32 f 8)) (Z.to_nat (wire_u32 f 12))
              (fun r c =>
                 f_byte f (16 + (wire_u32 f 8 * wire_u32 f 12 * index
                                 + (Z.of_nat c + Z.of_nat r * wire_u32 f 12))))).
Proof.
  intros e f.
  assert (H1 : files e "images"%string = Some f) by reflexivity.
  assert (H2 : wire_u32 f 0 = MAGIC_NUMBER_IMAGES) by reflexivity.
  assert (H3 : wire_u32 f 4 <= INT_MAX) by (vm_compute; discriminate).
  assert (H4 : wire_u32 f 8 <= INT_MAX) by (vm_compute; discriminate).
  assert (H5 : wire_u32 f 12 <= INT_MAX) by (vm_compute; discriminate).
  assert (H6 : wire_u32 f 4 * wire_u32 f 8 * wire_u32 f 12 <= INT_MAX)
    by (vm_compute; discriminate).
  assert (H7 : 16 + wire_u32 f 4 * wire_u32 f 8 * wire_u32 f 12 <= f_size f)
    by (vm_compute; discriminate).
  assert (H8 : alloc_ok e (wire_u32 f 4 * wire_u32 f 8 * wire_u32 f 12) = true)
    by reflexivity.
  split; [exact start_ok|]. split; [exact H1|]. split; [exact H2|].
  split; [exact (conj H3 (conj H4 H5))|]. split; [exact H6|].
  split; [exact H7|]. split; [exact H8|].
  exact (printing_a_loaded_image_renders_the_file e start "images"%string f x7f
           start_ok H1 H2 H3 H4 H5 H6 H7 H8).
Defined.
